(** * kernel/pgo/fs.c: serialisation of the PGO profile into a raw-profile blob

    A shallow embedding of the debugfs front end of the kernel's PGO
    support.  [fs.c] flattens the linker-defined profile sections and the
    value-profiling linked lists into one buffer: a size pass
    ([__prf_get_value_size], [prf_buffer_size]) sizes the allocation and a
    write pass ([prf_fill_header], [prf_copy_buffer], [prf_serialize_value])
    fills it through a cursor ([void **buffer]).

    Conventions of the embedding:
    - a [u8]/[u32]/[u64]/[unsigned long] value is a [Z] and every C
      operation that can wrap is followed by [u8]/[u32]/[u64];
    - memory is a list of bytes (each a [Z] in [0,256)); the cursor
      [void **buffer] is a buffer together with an offset into it;
    - a NULL-terminated linked list is a Rocq list, [[]] being NULL;
    - calls that leave the file (spinlock, allocators) are recorded in a
      trace carried by the [world]. *)

From stdpp Require Import base numbers list list_numbers strings.
From Stdlib Require Import ZArith Lia.

Local Open Scope Z_scope.

(** ** Machine integers and byte images *)

Definition u8 (x : Z) : Z := x mod 2 ^ 8.
Definition u32 (x : Z) : Z := x mod 2 ^ 32.
Definition u64 (x : Z) : Z := x mod 2 ^ 64.

(** [U8_MAX] of the kernel's limits. *)
Definition U8_MAX : Z := 255.

(** Little-endian image of an integer on [n] bytes (the host order of the
    kernels this code runs on). *)
Fixpoint le_bytes (n : nat) (x : Z) : list Z :=
  match n with
  | O => []
  | S n' => x mod 256 :: le_bytes n' (x / 256)
  end.

(** Value of a little-endian byte string. *)
Fixpoint le_value (bs : list Z) : Z :=
  match bs with
  | [] => 0
  | b :: bs' => b + 256 * le_value bs'
  end.

(** ** The buffer and its cursor *)

(** [void **buffer]: the bytes of the allocation and the offset [*buffer]
    has reached in it. *)
Record wbuf : Type := mk_wbuf { mem : list Z; pos : Z }.

(** Bytes [bs] stored from offset [off] on.  A store past the end of the
    allocation is undefined in C; here it is dropped, and the theorems
    that read memory back assume the room the size pass reserved. *)
Definition store_bytes (off : Z) (bs : list Z) (m : list Z) : list Z :=
  list_inserts (Z.to_nat off) bs m.

(** [len] bytes read from offset [off]. *)
Definition load_bytes (off len : Z) (m : list Z) : list Z :=
  take (Z.to_nat len) (drop (Z.to_nat off) m).

Definition load_u32 (off : Z) (m : list Z) : Z := le_value (load_bytes off 4 m).
Definition load_u64 (off : Z) (m : list Z) : Z := le_value (load_bytes off 8 m).

(** [*buffer += n]. *)
Definition advance (b : wbuf) (n : Z) : wbuf :=
  {| mem := mem b; pos := pos b + n |}.

(** A store through a pointer taken from the cursor earlier; the cursor
    itself does not move. *)
Definition poke (b : wbuf) (off : Z) (bs : list Z) : wbuf :=
  {| mem := store_bytes off bs (mem b); pos := pos b |}.

(** [prf_copy_buffer]: [size] bytes of [src] are copied to the cursor,
    which then moves [size] bytes on. *)
Definition prf_copy_buffer (b : wbuf) (src : list Z) (size : Z) : wbuf :=
  advance (poke b (pos b) (take (Z.to_nat size) src)) size.

(** ** Declarations of pgo.h *)

Module pgo_h.

(** Modelled from the spec: pgo.h is not among the sources.  A sample
    node holds a sampled value and its frequency; [next] is the tail of
    the Rocq list the node sits in. *)
Record llvm_prf_value_node : Type :=
  mk_node { value : Z; count : Z }.

(** Modelled from the spec: [struct llvm_prf_data] of pgo.h, reduced to
    the two members fs.c reads.  [values] is the (possibly NULL) array of
    per-site list heads, [num_value_sites] the site count of every value
    kind, in the order of the kind enumeration. *)
Record llvm_prf_data : Type :=
  mk_data {
    values : option (list (list llvm_prf_value_node));
    num_value_sites : list Z
  }.

(** Modelled from the spec: [struct llvm_prf_header] of pgo.h, ten
    64-bit members: magic, version, the sizes with the two reserved
    padding lengths between them, the two deltas, the last value kind. *)
Record llvm_prf_header : Type :=
  mk_header {
    magic : Z;
    version : Z;
    data_size : Z;
    padding_bytes_before_counters : Z;
    counters_size : Z;
    padding_bytes_after_counters : Z;
    names_size : Z;
    counters_delta : Z;
    names_delta : Z;
    value_kind_last : Z
  }.

(** Modelled from the spec: the bytes of a [struct llvm_prf_header], its
    members in declaration order. *)
Definition header_bytes (h : llvm_prf_header) : list Z :=
  le_bytes 8 (magic h) ++
  le_bytes 8 (version h) ++
  le_bytes 8 (data_size h) ++
  le_bytes 8 (padding_bytes_before_counters h) ++
  le_bytes 8 (counters_size h) ++
  le_bytes 8 (padding_bytes_after_counters h) ++
  le_bytes 8 (names_size h) ++
  le_bytes 8 (counters_delta h) ++
  le_bytes 8 (names_delta h) ++
  le_bytes 8 (value_kind_last h).

(** Modelled from the spec: [sizeof(struct llvm_prf_header)]. *)
Definition sizeof_llvm_prf_header : Z := 80.

(** Modelled from the spec: [sizeof(struct llvm_prf_value_data)], the
    per-record header: total byte size and number of kinds, both [u32]. *)
Definition sizeof_llvm_prf_value_data : Z := 8.

(** Modelled from the spec: [sizeof(struct llvm_prf_value_node_data)],
    a sampled value and its frequency, both [u64]. *)
Definition sizeof_llvm_prf_value_node_data : Z := 16.

(** Modelled from the spec: the bytes of a [struct llvm_prf_value_data]. *)
Definition value_data_bytes (total_size num_value_kinds : Z) : list Z :=
  le_bytes 4 total_size ++ le_bytes 4 num_value_kinds.

(** Modelled from the spec: the leading bytes of a sample node, which are
    its [struct llvm_prf_value_node_data]; the [next] pointer that follows
    them in memory is never copied. *)
Definition node_bytes (nd : llvm_prf_value_node) : list Z :=
  le_bytes 8 (value nd) ++ le_bytes 8 (count nd).

(** Modelled from the spec: [prf_get_value_record_header_size()], the
    offset of the site count array in [struct llvm_prf_value_record],
    after the [u32] kind tag and the [u32] site count. *)
Definition prf_get_value_record_header_size : Z := 8.

(** Modelled from the spec: [prf_get_value_record_site_count_size(sites)],
    one count byte per site, rounded up to a multiple of 8. *)
Definition prf_get_value_record_site_count_size (sites : Z) : Z :=
  (sites + 7) / 8 * 8.

(** Modelled from the spec: [prf_get_value_record_size(sites)], record
    header plus site count array. *)
Definition prf_get_value_record_size (sites : Z) : Z :=
  prf_get_value_record_header_size +
  prf_get_value_record_site_count_size sites.

(** Modelled from the spec: [prf_get_padding(size)], the distance from
    [size] to the next multiple of 8. *)
Definition prf_get_padding (size : Z) : Z :=
  Z.land 7 (8 - size mod 8).

End pgo_h.
Export pgo_h.

(** [nodes[i]]: the list head of site [i]; an index outside the array is
    outside the contract of the record and read as NULL. *)
Definition site_at (nodes : list (list llvm_prf_value_node)) (i : Z)
  : list llvm_prf_value_node :=
  default [] (nodes !! Z.to_nat i).

(** ** The size pass *)

(** [while (site && ++count <= U8_MAX) site = site->next;]
    The increment is part of the condition: it also happens on the test
    that ends the loop. *)
Fixpoint count_nodes (site : list llvm_prf_value_node) (count : Z) : Z :=
  match site with
  | [] => count
  | _ :: next =>
      let count := u32 (count + 1) in
      if count <=? U8_MAX then count_nodes next count else count
  end.

(** Body of [for (n = 0; n < sites; n++)] in [__prf_get_value_size]. *)
Definition size_site (nodes : list (list llvm_prf_value_node)) (s : Z)
    (size : Z) (n : Z) : Z :=
  let count := count_nodes (site_at nodes (u32 (s + n))) 0 in
  u32 (size + count * sizeof_llvm_prf_value_node_data).

(** Loop variables of [__prf_get_value_size]. *)
Record size_vars : Type := mk_size_vars { sz_size : Z; sz_kinds : Z; sz_s : Z }.

(** Body of [for (kind = 0; kind < ARRAY_SIZE(p->num_value_sites); kind++)]. *)
Definition size_kind (nodes : option (list (list llvm_prf_value_node)))
    (v : size_vars) (sites : Z) : size_vars :=
  if sites =? 0 then v
  else
    let size := u32 (sz_size v + prf_get_value_record_size sites) in
    let kinds := u32 (sz_kinds v + 1) in
    match nodes with
    | None => {| sz_size := size; sz_kinds := kinds; sz_s := sz_s v |}
    | Some arr =>
        {| sz_size := foldl (size_site arr (sz_s v)) size (seqZ 0 sites);
           sz_kinds := kinds;
           sz_s := u32 (sz_s v + sites) |}
    end.

(** [__prf_get_value_size(p, &kinds)]: the pair (returned size, kinds). *)
Definition __prf_get_value_size (p : llvm_prf_data) : Z * Z :=
  let v := foldl (size_kind (values p))
                 {| sz_size := 0; sz_kinds := 0; sz_s := 0 |}
                 (num_value_sites p) in
  let size :=
    if sz_size v =? 0 then 0
    else u32 (sz_size v + sizeof_llvm_prf_value_data) in
  (size, sz_kinds v).

(** [prf_get_value_size()] over the records of [__llvm_prf_data]. *)
Definition prf_get_value_size (data : list llvm_prf_data) : Z :=
  foldl (fun size p => u32 (size + fst (__prf_get_value_size p))) 0 data.

(** ** The write pass *)

(** The [while] loop of [prf_serialize_value]: same condition as in the
    size pass, one node copied per iteration. *)
Fixpoint write_nodes (site : list llvm_prf_value_node) (count : Z) (b : wbuf)
  : Z * wbuf :=
  match site with
  | [] => (count, b)
  | nd :: next =>
      let count := u32 (count + 1) in
      if count <=? U8_MAX then
        write_nodes next count
          (prf_copy_buffer b (node_bytes nd) sizeof_llvm_prf_value_node_data)
      else (count, b)
  end.

(** Body of [for (n = 0; n < sites; n++)] in [prf_serialize_value];
    [counts] is the offset of the site count array. *)
Definition write_site (nodes : list (list llvm_prf_value_node)) (s counts : Z)
    (b : wbuf) (n : Z) : wbuf :=
  let '(count, b) := write_nodes (site_at nodes (u32 (s + n))) 0 b in
  poke b (counts + n) [u8 count].

(** The [for (kind ...)] loop of [prf_serialize_value], from kind [kind]
    on; [rest] are the site counts not visited yet. *)
Fixpoint write_kinds (nodes : option (list (list llvm_prf_value_node)))
    (kind : Z) (rest : list Z) (s : Z) (b : wbuf) : wbuf :=
  match rest with
  | [] => b
  | sites :: rest' =>
      if sites =? 0 then write_kinds nodes (u32 (kind + 1)) rest' s b
      else
        let record := pos b in
        let b := advance b prf_get_value_record_header_size in
        let b := poke b record (le_bytes 4 kind) in
        let b := poke b (record + 4) (le_bytes 4 sites) in
        let counts := pos b in
        let b := advance b (prf_get_value_record_site_count_size sites) in
        match nodes with
        | None => write_kinds nodes (u32 (kind + 1)) rest' s b
        | Some arr =>
            let b := foldl (write_site arr s counts) b (seqZ 0 sites) in
            write_kinds nodes (u32 (kind + 1)) rest' (u32 (s + sites)) b
        end
  end.

(** [prf_serialize_value(p, buffer)]. *)
Definition prf_serialize_value (p : llvm_prf_data) (b : wbuf) : wbuf :=
  let '(total_size, num_value_kinds) := __prf_get_value_size p in
  if num_value_kinds =? 0 then b
  else
    let b := prf_copy_buffer b (value_data_bytes total_size num_value_kinds)
                             sizeof_llvm_prf_value_data in
    write_kinds (values p) 0 (num_value_sites p) 0 b.

(** [prf_serialize_values(buffer)]. *)
Definition prf_serialize_values (data : list llvm_prf_data) (b : wbuf) : wbuf :=
  foldl (fun b p => prf_serialize_value p b) b data.

(** ** The profile sections and the world around fs.c *)

(** Modelled from the spec: the linker-defined sections fs.c reads.  The
    symbols [__llvm_prf_{data,cnts,names}_start] and the accessors
    [prf_*_size()] and [prf_*_count()] are declared in pgo.h, which is
    not among the sources; a section is the bytes its size accessor
    covers, and what the count accessors return is left open. *)
Record prf_sections : Type :=
  mk_sections {
    __llvm_prf_data : list llvm_prf_data;  (* the records, in address order *)
    data_bytes : list Z;                   (* the same records, as memory *)
    cnts_bytes : list Z;
    names_bytes : list Z;
    __llvm_prf_cnts_start : Z;             (* addresses *)
    __llvm_prf_names_start : Z;
    prf_data_count : Z;
    prf_cnts_count : Z;
    prf_names_count : Z
  }.

(** Modelled from the spec: [prf_data_size()], the byte length of the
    records section. *)
Definition prf_data_size (s : prf_sections) : Z := Z.of_nat (length (data_bytes s)).

(** Modelled from the spec: [prf_cnts_size()], the byte length of the
    counters section. *)
Definition prf_cnts_size (s : prf_sections) : Z := Z.of_nat (length (cnts_bytes s)).

(** Modelled from the spec: [prf_names_size()], the byte length of the
    names section. *)
Definition prf_names_size (s : prf_sections) : Z := Z.of_nat (length (names_bytes s)).

Definition set_cnts_bytes (s : prf_sections) (c : list Z) : prf_sections :=
  {| __llvm_prf_data := __llvm_prf_data s;
     data_bytes := data_bytes s;
     cnts_bytes := c;
     names_bytes := names_bytes s;
     __llvm_prf_cnts_start := __llvm_prf_cnts_start s;
     __llvm_prf_names_start := __llvm_prf_names_start s;
     prf_data_count := prf_data_count s;
     prf_cnts_count := prf_cnts_count s;
     prf_names_count := prf_names_count s |}.

(** Calls that leave fs.c. *)
Inductive event : Type :=
  | EvLock (flags : Z)                (* prf_serialize_lock() returned [flags] *)
  | EvUnlock (flags : Z)              (* prf_serialize_unlock(flags) *)
  | EvVzalloc (size : Z) (ok : bool)  (* vzalloc(size), non-NULL or not *)
  | EvKzalloc (ok : bool)             (* kzalloc of the private data *)
  | EvKfree.                          (* kfree(data) *)

(** What fs.c runs against: the sections, the serialisation lock, the two
    allocators (which may refuse) and the calls made so far. *)
Record world : Type :=
  mk_world {
    sections : prf_sections;
    lock_held : bool;
    irq_flags : Z;            (* what the lock hands out as [flags] *)
    vzalloc_ok : Z -> bool;   (* does vzalloc of that size succeed? *)
    kzalloc_ok : bool;
    trace : list event
  }.

Definition set_sections (w : world) (s : prf_sections) : world :=
  {| sections := s; lock_held := lock_held w; irq_flags := irq_flags w;
     vzalloc_ok := vzalloc_ok w; kzalloc_ok := kzalloc_ok w; trace := trace w |}.

Definition set_lock (w : world) (held : bool) : world :=
  {| sections := sections w; lock_held := held; irq_flags := irq_flags w;
     vzalloc_ok := vzalloc_ok w; kzalloc_ok := kzalloc_ok w; trace := trace w |}.

Definition emit (e : event) (w : world) : world :=
  {| sections := sections w; lock_held := lock_held w; irq_flags := irq_flags w;
     vzalloc_ok := vzalloc_ok w; kzalloc_ok := kzalloc_ok w;
     trace := trace w ++ [e] |}.

(** Kernel code as a state transformer over the world. *)
Definition kernel (A : Type) : Type := world -> A * world.

Definition kret {A} (a : A) : kernel A := fun w => (a, w).

Definition kbind {A B} (m : kernel A) (f : A -> kernel B) : kernel B :=
  fun w => let '(a, w') := m w in f a w'.

Notation "x <- m ;; k" := (kbind m (fun x => k))
  (at level 100, m at next level, right associativity).
Notation "m ;;; k" := (kbind m (fun _ => k))
  (at level 100, right associativity).

(** Reading the sections, and writing them back. *)
Definition get_sections : kernel prf_sections := fun w => (sections w, w).

Definition put_sections (s : prf_sections) : kernel unit :=
  fun w => (tt, set_sections w s).

(** Modelled from the spec: [prf_serialize_lock()] is declared in pgo.h,
    which is not among the sources.  The lock is the mutual-exclusion
    guard of the snapshot; taking it returns the saved interrupt flags. *)
Definition prf_serialize_lock : kernel Z :=
  fun w => (irq_flags w, emit (EvLock (irq_flags w)) (set_lock w true)).

(** Modelled from the spec: [prf_serialize_unlock(flags)], declared in
    pgo.h as well; it releases the guard and takes the flags back. *)
Definition prf_serialize_unlock (flags : Z) : kernel unit :=
  fun w => (tt, emit (EvUnlock flags) (set_lock w false)).

(** [vzalloc(size)]: NULL, or [size] zero bytes. *)
Definition vzalloc (size : Z) : kernel (option (list Z)) :=
  fun w =>
    if vzalloc_ok w size
    then (Some (replicate (Z.to_nat size) 0), emit (EvVzalloc size true) w)
    else (None, emit (EvVzalloc size false) w).

(** A 64-bit value read as an [ssize_t]: values from 2^63 on come out
    negative. *)
Definition ssize_t (x : Z) : Z := (x + 2 ^ 63) mod 2 ^ 64 - 2 ^ 63.

(** [memset(dst, c, n)] on a region. *)
Definition memset (m : list Z) (c n : Z) : list Z :=
  store_bytes 0 (replicate (Z.to_nat n) c) m.

(** [ENOMEM] of the kernel's errno numbers. *)
Definition ENOMEM : Z := 12.

(** [struct prf_private_data]; a NULL [buffer] is [None]. *)
Record prf_private_data : Type :=
  mk_private { buffer : option (list Z); size : Z }.

(** The part of [struct file] that fs.c uses. *)
Record file : Type := mk_file { private_data : option prf_private_data }.

(** [kzalloc] of a [struct prf_private_data]: NULL, or the struct
    zeroed. *)
Definition kzalloc_private : kernel (option prf_private_data) :=
  fun w =>
    if kzalloc_ok w
    then (Some {| buffer := None; size := 0 |}, emit (EvKzalloc true) w)
    else (None, emit (EvKzalloc false) w).

Definition kfree : kernel unit := fun w => (tt, emit EvKfree w).

(** [prf_buffer_size()], an [unsigned long] (64 bits on the kernels the
    PGO support builds for). *)
Definition prf_buffer_size (s : prf_sections) : Z :=
  u64 (sizeof_llvm_prf_header +
       prf_data_size s +
       prf_cnts_size s +
       prf_names_size s +
       prf_get_padding (prf_names_size s) +
       prf_get_value_size (__llvm_prf_data s)).

Section fs.

(** The constants of pgo.h, which is not among the sources: the magic
    number, the base version, the IR variant flag and the highest value
    kind. *)
Variables (LLVM_PRF_MAGIC LLVM_PRF_VERSION : Z).
Variables (LLVM_PRF_VARIANT_MASK_IR LLVM_PRF_IPVK_LAST : Z).

(** [prf_fill_header(buffer)]: the ten members of
    [struct llvm_prf_header], each a [u64], stored in declaration order. *)
Definition prf_fill_header (s : prf_sections) (b : wbuf) : wbuf :=
  let header := pos b in
  let b := poke b (header + 0) (le_bytes 8 LLVM_PRF_MAGIC) in
  let b := poke b (header + 8)
             (le_bytes 8 (Z.lor LLVM_PRF_VARIANT_MASK_IR LLVM_PRF_VERSION)) in
  let b := poke b (header + 16) (le_bytes 8 (prf_data_count s)) in
  let b := poke b (header + 24) (le_bytes 8 0) in
  let b := poke b (header + 32) (le_bytes 8 (prf_cnts_count s)) in
  let b := poke b (header + 40) (le_bytes 8 0) in
  let b := poke b (header + 48) (le_bytes 8 (prf_names_count s)) in
  let b := poke b (header + 56) (le_bytes 8 (__llvm_prf_cnts_start s)) in
  let b := poke b (header + 64) (le_bytes 8 (__llvm_prf_names_start s)) in
  let b := poke b (header + 72) (le_bytes 8 LLVM_PRF_IPVK_LAST) in
  advance b sizeof_llvm_prf_header.

(** Lines 226-234 of [prf_serialize]: the buffer just allocated is filled
    through the local cursor [buffer]; the result is the cursor at
    the [out:] label. *)
Definition prf_fill_buffer (s : prf_sections) (zeroed : list Z) : wbuf :=
  let b := {| mem := zeroed; pos := 0 |} in
  let b := prf_fill_header s b in
  let b := prf_copy_buffer b (data_bytes s) (prf_data_size s) in
  let b := prf_copy_buffer b (cnts_bytes s) (prf_cnts_size s) in
  let b := prf_copy_buffer b (names_bytes s) (prf_names_size s) in
  let b := advance b (prf_get_padding (prf_names_size s)) in
  prf_serialize_values (__llvm_prf_data s) b.

(** [prf_serialize(p)]: the error code and [*p] on return.  [p->size] and
    [p->buffer] are assigned before the NULL test. *)
Definition prf_serialize (p : prf_private_data)
  : kernel (Z * prf_private_data) :=
  flags <- prf_serialize_lock ;;
  s <- get_sections ;;
  let p := {| buffer := buffer p; size := prf_buffer_size s |} in
  buf <- vzalloc (size p) ;;
  let p := {| buffer := buf; size := size p |} in
  match buffer p with
  | None =>
      prf_serialize_unlock flags ;;;
      kret (- ENOMEM, p)
  | Some zeroed =>
      let b := prf_fill_buffer s zeroed in
      prf_serialize_unlock flags ;;;
      kret (0, {| buffer := Some (mem b); size := size p |})
  end.

(** [prf_open(inode, file)]: the error code and the file on return. *)
Definition prf_open (f : file) : kernel (Z * file) :=
  data <- kzalloc_private ;;
  match data with
  | None => kret (- ENOMEM, f)
  | Some data =>
      r <- prf_serialize data ;;
      let '(err, data) := r in
      if err =? 0
      then kret (0, {| private_data := Some data |})
      else kfree ;;; kret (err, f)
  end.

(** [prf_reset_write(file, addr, len, pos)]: the counters are cleared with
    a plain [memset]; the function calls nothing else.  [len] is a
    [size_t] and the function returns it as an [ssize_t]. *)
Definition prf_reset_write (len : Z) : kernel Z :=
  s <- get_sections ;;
  put_sections (set_cnts_bytes s (memset (cnts_bytes s) 0 (prf_cnts_size s))) ;;;
  kret (ssize_t len).

End fs.

(** Flags of the lock acquisitions and of the lock releases in a trace. *)
Definition locks (t : list event) : list Z :=
  omap (fun e => match e with EvLock f => Some f | _ => None end) t.

Definition unlocks (t : list event) : list Z :=
  omap (fun e => match e with EvUnlock f => Some f | _ => None end) t.

(** ** A reset racing with the copy of the counters *)

(** Two threads on the counters section: the snapshot, which takes the
    serialisation lock, copies the section one unit at a time and
    releases the lock ([prf_serialize], lines 216, 230 and 237), and the
    reset, whose [memset] clears one unit at a time and, as
    [prf_reset_write] has it, without looking at the lock (line 295).  The
    other statements of [prf_serialize] do not touch the counters and are
    left out. *)
Inductive thread : Type := Snapshot | Reset.

Inductive snap_pc : Type :=
  | SnapLock              (* before prf_serialize_lock() *)
  | SnapCopy (i : nat)    (* inside the copy, [i] units done *)
  | SnapDone.             (* after prf_serialize_unlock() *)

Record race : Type :=
  mk_race {
    live : list Z;        (* the counters section *)
    blob : list Z;        (* the counters region of the snapshot *)
    guard : bool;         (* the serialisation lock *)
    snap : snap_pc;
    zeroed : nat          (* units the reset has cleared *)
  }.

Definition snapshot_step (r : race) : race :=
  match snap r with
  | SnapLock =>
      if guard r then r   (* spin *)
      else {| live := live r; blob := blob r; guard := true;
              snap := SnapCopy 0; zeroed := zeroed r |}
  | SnapCopy i =>
      match live r !! i with
      | Some x =>
          {| live := live r; blob := <[i := x]> (blob r); guard := guard r;
             snap := SnapCopy (S i); zeroed := zeroed r |}
      | None =>
          {| live := live r; blob := blob r; guard := false;
             snap := SnapDone; zeroed := zeroed r |}
      end
  | SnapDone => r
  end.

Definition reset_step (r : race) : race :=
  if decide (zeroed r < length (live r))%nat
  then {| live := <[zeroed r := 0]> (live r); blob := blob r; guard := guard r;
          snap := snap r; zeroed := S (zeroed r) |}
  else r.

Definition race_step (r : race) (t : thread) : race :=
  match t with
  | Snapshot => snapshot_step r
  | Reset => reset_step r
  end.

(** The run of a schedule. *)
Definition race_run (sched : list thread) (r : race) : race :=
  foldl race_step r sched.

Definition race_init (cnts zeroed_buf : list Z) : race :=
  {| live := cnts; blob := zeroed_buf; guard := false;
     snap := SnapLock; zeroed := 0%nat |}.

(** ** Release, and the debugfs entries of the module *)

(** What [prf_release] hands back to the allocators, in call order. *)
Inductive freed : Type :=
  | FreedBuffer (buf : option (list Z))     (* vfree(data->buffer) *)
  | FreedData (data : prf_private_data).    (* kfree(data) *)

(** [prf_release(inode, file)]: the return value and the frees.  The
    function does not reset [file->private_data]. *)
Definition prf_release (f : file) : Z * list freed :=
  match private_data f with
  | Some data => (0, [FreedBuffer (buffer data); FreedData data])
  | None => (0, [])
  end.

(** [prf_reset_read(file, addr, len, pos)]. *)
Definition prf_reset_read (len : Z) : Z := 0.

(** The two [struct file_operations] of the file. *)
Inductive fops : Type := prf_fops | prf_reset_fops.

(** A debugfs entry as fs.c creates it: name, mode, parent directory and
    file operations (none for a directory). *)
Record dentry : Type :=
  mk_dentry {
    d_name : string;
    d_mode : option Z;
    d_parent : option string;
    d_fops : option fops
  }.

(** The module and what it talks to at load time: the static
    [directory], the entries of debugfs, whether debugfs grants the
    creation of a name, and the kernel log. *)
Record pgo_module : Type :=
  mk_module {
    directory : option string;
    debugfs : list dentry;
    create_ok : string -> bool;
    klog : list string
  }.

(** [debugfs_create_dir(name, NULL)] and
    [debugfs_create_file(name, mode, parent, NULL, fops)]: NULL, or the
    new entry, which is then part of debugfs. *)
Definition debugfs_create (e : dentry) (m : pgo_module)
  : option string * pgo_module :=
  if create_ok m (d_name e)
  then (Some (d_name e),
        {| directory := directory m; debugfs := debugfs m ++ [e];
           create_ok := create_ok m; klog := klog m |})
  else (None, m).

Definition set_directory (d : option string) (m : pgo_module) : pgo_module :=
  {| directory := d; debugfs := debugfs m; create_ok := create_ok m;
     klog := klog m |}.

Definition pr_err (msg : string) (m : pgo_module) : pgo_module :=
  {| directory := directory m; debugfs := debugfs m; create_ok := create_ok m;
     klog := klog m ++ [msg] |}.

(** [EIO] of the kernel's errno numbers. *)
Definition EIO : Z := 5.

Definition pgo_dir : dentry :=
  {| d_name := "pgo"; d_mode := None; d_parent := None; d_fops := None |}.

Definition profraw_file (parent : option string) : dentry :=
  {| d_name := "profraw"; d_mode := Some 420; (* 0644 *)
     d_parent := parent; d_fops := Some prf_fops |}.

Definition reset_file (parent : option string) : dentry :=
  {| d_name := "reset"; d_mode := Some 438; (* 0666 *)
     d_parent := parent; d_fops := Some prf_reset_fops |}.

(** The [err_remove:] label of [pgo_init]: a message and [-EIO]; nothing
    is removed there. *)
Definition err_remove (m : pgo_module) : Z * pgo_module :=
  (- EIO, pr_err "init failed" m).

(** [pgo_init()]. *)
Definition pgo_init (m : pgo_module) : Z * pgo_module :=
  let '(dir, m) := debugfs_create pgo_dir m in
  let m := set_directory dir m in
  match directory m with
  | None => err_remove m
  | Some _ =>
      let '(entry, m) := debugfs_create (profraw_file (directory m)) m in
      match entry with
      | None => err_remove m
      | Some _ =>
          let '(entry, m) := debugfs_create (reset_file (directory m)) m in
          match entry with
          | None => err_remove m
          | Some _ => (0, m)
          end
      end
  end.

(** [debugfs_remove_recursive(dentry)]: the entry and what hangs below
    it leave debugfs; NULL is accepted and removes nothing. *)
Definition debugfs_remove_recursive (d : option string) (es : list dentry)
  : list dentry :=
  match d with
  | None => es
  | Some name =>
      filter (fun e => ¬ (d_parent e = None /\ d_name e = name) /\
                       d_parent e ≠ Some name) es
  end.

(** [pgo_exit()]. *)
Definition pgo_exit (m : pgo_module) : pgo_module :=
  {| directory := directory m;
     debugfs := debugfs_remove_recursive (directory m) (debugfs m);
     create_ok := create_ok m; klog := klog m |}.

(** Successful allocations and calls of [kfree] in a trace. *)
Definition is_alloc (e : event) : bool :=
  match e with
  | EvKzalloc ok => ok
  | EvVzalloc _ ok => ok
  | _ => false
  end.

Definition is_kfree (e : event) : bool :=
  match e with
  | EvKfree => true
  | _ => false
  end.

Definition allocs (t : list event) : nat := length (filter is_alloc t).

Definition kfrees (t : list event) : nat := length (filter is_kfree t).

(** What [pgo_init] has created in debugfs when it returns: the
    directory if it was granted, then the files up to the first one
    refused. *)
Definition created_by_init (ok : string -> bool) : list dentry :=
  if ok "pgo" then
    pgo_dir ::
    (if ok "profraw" then
       profraw_file (Some "pgo") ::
       (if ok "reset" then [reset_file (Some "pgo")] else [])
     else [])
  else [].

(** ** The image of a flattened value record *)

(** The count byte of a site: the low byte of the counter the node loop
    ends with. *)
Definition count_byte (site : list llvm_prf_value_node) : Z :=
  u8 (count_nodes site 0).

(** The node data of a site: its first 255 nodes, one after the other. *)
Definition site_payload (site : list llvm_prf_value_node) : list Z :=
  mjoin (node_bytes <$> take 255 site).

(** The lists of the sites [s], ..., [s + sites - 1] of the site array. *)
Definition kind_sites (arr : list (list llvm_prf_value_node)) (s sites : Z)
  : list (list llvm_prf_value_node) :=
  (fun n => site_at arr (u32 (s + n))) <$> seqZ 0 sites.

(** The record of one kind: tag, site count, one count byte per visited
    site, zeros up to the size of the count array, then the node data of
    the visited sites. *)
Definition kind_image (kind sites : Z)
    (visited : list (list llvm_prf_value_node)) : list Z :=
  le_bytes 4 kind ++ le_bytes 4 sites ++
  ((count_byte <$> visited) ++
   replicate (Z.to_nat (prf_get_value_record_site_count_size sites) -
              length visited) 0) ++
  mjoin (site_payload <$> visited).

(** The records of the kinds in [rest], in order; without site array no
    site is visited. *)
Fixpoint kinds_image (nodes : option (list (list llvm_prf_value_node)))
    (kind : Z) (rest : list Z) (s : Z) : list Z :=
  match rest with
  | [] => []
  | sites :: rest' =>
      if sites =? 0 then kinds_image nodes (kind + 1) rest' s
      else
        match nodes with
        | None =>
            kind_image kind sites [] ++ kinds_image nodes (kind + 1) rest' s
        | Some arr =>
            kind_image kind sites (kind_sites arr s sites) ++
            kinds_image nodes (kind + 1) rest' (u32 (s + sites))
        end
  end.

(** The flattened value record of a metadata record: nothing, or the
    record header with the size and the number of kinds the size pass
    computed, followed by the records of the kinds. *)
Definition record_image (p : llvm_prf_data) : list Z :=
  if snd (__prf_get_value_size p) =? 0 then []
  else value_data_bytes (fst (__prf_get_value_size p))
                        (snd (__prf_get_value_size p)) ++
       kinds_image (values p) 0 (num_value_sites p) 0.

(** ** Sizes as the two passes see them *)

(** Sum of [f] over a list. *)
Definition sumZ {A : Type} (f : A -> Z) (l : list A) : Z :=
  foldr (fun x acc => f x + acc) 0 l.

(** Bytes of node data of one site when at most [cap] nodes count. *)
Definition site_bytes (cap : Z) (site : list llvm_prf_value_node) : Z :=
  Z.min (Z.of_nat (length site)) cap * sizeof_llvm_prf_value_node_data.

(** Bytes of the records of the kinds in [rest], for the site array
    [nodes] read from index [s] on, when at most [cap] nodes count per
    site. *)
Fixpoint kinds_bytes (cap : Z) (nodes : option (list (list llvm_prf_value_node)))
    (rest : list Z) (s : Z) : Z :=
  match rest with
  | [] => 0
  | sites :: rest' =>
      if sites =? 0 then kinds_bytes cap nodes rest' s
      else
        prf_get_value_record_size sites +
        match nodes with
        | None => kinds_bytes cap nodes rest' s
        | Some arr =>
            sumZ (fun n => site_bytes cap (site_at arr (u32 (s + n)))) (seqZ 0 sites) +
            kinds_bytes cap nodes rest' (u32 (s + sites))
        end
  end.

(** Nodes the write loop copies when it is entered with the counter at
    [count]: never more than 255 in all. *)
Definition nodes_copied (site : list llvm_prf_value_node) (count : Z) : Z :=
  Z.min (count + Z.of_nat (length site)) 255 - count.

(** Bytes of the kind records when no node data follows them. *)
Definition null_values_size (nvs : list Z) : Z :=
  sumZ prf_get_value_record_size (filter (fun sites => sites ≠ 0) nvs).

(** Sites the loops visit whose list has more than 255 nodes. *)
Definition long_site (site : list llvm_prf_value_node) : Z :=
  if 255 <? Z.of_nat (length site) then 1 else 0.

Fixpoint long_sites (nodes : option (list (list llvm_prf_value_node)))
    (rest : list Z) (s : Z) : Z :=
  match rest with
  | [] => 0
  | sites :: rest' =>
      if sites =? 0 then long_sites nodes rest' s
      else
        match nodes with
        | None => long_sites nodes rest' s
        | Some arr =>
            sumZ (fun n => long_site (site_at arr (u32 (s + n)))) (seqZ 0 sites) +
            long_sites nodes rest' (u32 (s + sites))
        end
  end.

(** Number of kinds with sites. *)
Definition kinds_present (nvs : list Z) : Z :=
  Z.of_nat (length (filter (fun sites => sites ≠ 0) nvs)).

(** Bytes the write pass emits for one record: nothing when the [u32]
    counter of kinds is zero, else the record header and the kinds with
    at most 255 nodes per site. *)
Definition emitted_bytes (p : llvm_prf_data) : Z :=
  if u32 (kinds_present (num_value_sites p)) =? 0 then 0
  else sizeof_llvm_prf_value_data +
       kinds_bytes 255 (values p) (num_value_sites p) 0.

(** A record none of whose site lists has more than 255 nodes. *)
Definition short_lists (p : llvm_prf_data) : Prop :=
  match values p with
  | None => True
  | Some arr => Forall (fun site => (length site <= 255)%nat) arr
  end.

(** A record on which the two passes can agree: no list beyond the cap
    and a size within the [u32] accumulator. *)
Definition fits_u32 (p : llvm_prf_data) : Prop :=
  short_lists p /\
  Forall (fun sites => 0 <= sites) (num_value_sites p) /\
  Z.of_nat (length (num_value_sites p)) < 2 ^ 32 /\
  sizeof_llvm_prf_value_data + kinds_bytes 256 (values p) (num_value_sites p) 0 < 2 ^ 32.

(** The image of the records of a profile without site array: for every
    kind with sites, its tag, its site count and a zero count array. *)
Fixpoint null_values_records (kind : Z) (rest : list Z) : list Z :=
  match rest with
  | [] => []
  | sites :: rest' =>
      if sites =? 0 then null_values_records (kind + 1) rest'
      else
        le_bytes 4 kind ++ le_bytes 4 sites ++
        replicate (Z.to_nat (prf_get_value_record_site_count_size sites)) 0 ++
        null_values_records (kind + 1) rest'
  end.

(** ** The image of the blob *)

(** A record whose size the [u32] accumulator of the size pass holds. *)
Definition no_wrap (p : llvm_prf_data) : Prop :=
  Forall (fun sites => 0 <= sites) (num_value_sites p) /\
  Z.of_nat (length (num_value_sites p)) < 2 ^ 32 /\
  sizeof_llvm_prf_value_data + kinds_bytes 256 (values p) (num_value_sites p) 0 < 2 ^ 32.

(** The profile data format of the comment before [__prf_get_value_size]:
    header, records, counters, names, zero padding, then the flattened
    value record of every metadata record. *)
Definition blob_image (h : llvm_prf_header) (s : prf_sections) : list Z :=
  header_bytes h ++
  data_bytes s ++
  cnts_bytes s ++
  names_bytes s ++
  replicate (Z.to_nat (prf_get_padding (prf_names_size s))) 0 ++
  mjoin (record_image <$> __llvm_prf_data s).

(** The header [prf_fill_header] stores, for given constants of pgo.h. *)
Definition filled_header
    (LLVM_PRF_MAGIC LLVM_PRF_VERSION LLVM_PRF_VARIANT_MASK_IR LLVM_PRF_IPVK_LAST : Z)
    (s : prf_sections) : llvm_prf_header :=
  {| magic := LLVM_PRF_MAGIC;
     version := Z.lor LLVM_PRF_VARIANT_MASK_IR LLVM_PRF_VERSION;
     data_size := prf_data_count s;
     padding_bytes_before_counters := 0;
     counters_size := prf_cnts_count s;
     padding_bytes_after_counters := 0;
     names_size := prf_names_count s;
     counters_delta := __llvm_prf_cnts_start s;
     names_delta := __llvm_prf_names_start s;
     value_kind_last := LLVM_PRF_IPVK_LAST |}.

(** Sites with more than 255 nodes over all records. *)
Definition total_long_sites (data : list llvm_prf_data) : Z :=
  sumZ (fun p => long_sites (values p) (num_value_sites p) 0) data.

(** Sections whose sizes the arithmetic of the size pass holds: no
    record wraps, nor does the sum over the records, nor the total. *)
Definition sections_fit (s : prf_sections) : Prop :=
  Forall no_wrap (__llvm_prf_data s) /\
  sumZ (fun p => fst (__prf_get_value_size p)) (__llvm_prf_data s) < 2 ^ 32 /\
  prf_data_size s + prf_cnts_size s + prf_names_size s < 2 ^ 63.

(** ** Test data *)

Definition sample_node : llvm_prf_value_node := {| value := 7; count := 1 |}.

(** One value kind with one site whose list has [n] nodes, the second
    kind without sites. *)
Definition one_site_record (n : nat) : llvm_prf_data :=
  {| values := Some [replicate n sample_node]; num_value_sites := [1; 0] |}.

Definition zero_buffer (n : nat) : wbuf := {| mem := replicate n 0; pos := 0 |}.

(** Sections with the single record [one_site_record n], one counter and
    a three-byte name. *)
Definition one_record_sections (n : nat) : prf_sections :=
  {| __llvm_prf_data := [one_site_record n];
     data_bytes := replicate 48 1;
     cnts_bytes := [5; 0; 0; 0; 0; 0; 0; 0];
     names_bytes := [102; 111; 111];
     __llvm_prf_cnts_start := 4096;
     __llvm_prf_names_start := 8192;
     prf_data_count := 1;
     prf_cnts_count := 1;
     prf_names_count := 3 |}.

Definition sample_world (s : prf_sections) (vz kz : bool) : world :=
  {| sections := s; lock_held := false; irq_flags := 582;
     vzalloc_ok := fun _ => vz; kzalloc_ok := kz; trace := [] |}.

(** * Proofs *)

(** ** Machine arithmetic *)

Lemma u32_small (x : Z) : 0 <= x < 2 ^ 32 -> u32 x = x.
Proof. intros H. unfold u32. apply Z.mod_small. exact H. Qed.

Lemma u32_range (x : Z) : 0 <= u32 x < 2 ^ 32.
Proof. unfold u32. apply Z.mod_pos_bound. lia. Qed.

Lemma u32_add_l (x y : Z) : u32 (u32 x + y) = u32 (x + y).
Proof. unfold u32. apply Zplus_mod_idemp_l. Qed.

Lemma length_le_bytes (n : nat) (x : Z) : length (le_bytes n x) = n.
Proof. revert x. induction n as [|n IH]; intros x; simpl; [|rewrite IH]; reflexivity. Qed.

Lemma le_value_le_bytes (n : nat) (x : Z) :
  le_value (le_bytes n x) = x mod 256 ^ Z.of_nat n.
Proof.
  revert x. induction n as [|n IH]; intros x.
  - simpl. rewrite Z.mod_1_r. reflexivity.
  - cbn [le_bytes le_value]. rewrite IH.
    rewrite Nat2Z.inj_succ, Z.pow_succ_r by lia.
    rewrite Z.rem_mul_r by lia. reflexivity.
Qed.

Lemma le_bytes_mod (n : nat) (x : Z) :
  le_bytes n (x mod 256 ^ Z.of_nat n) = le_bytes n x.
Proof.
  revert x. induction n as [|n IH]; intros x; [reflexivity|].
  cbn [le_bytes]. rewrite Nat2Z.inj_succ, Z.pow_succ_r by lia.
  set (k := 256 ^ Z.of_nat n).
  assert (Hk : 0 < k) by (apply Z.pow_pos_nonneg; lia).
  rewrite Z.rem_mul_r by lia.
  set (r := x mod 256). set (q := (x / 256) mod k).
  assert (Hr : 0 <= r < 256) by (apply Z.mod_pos_bound; lia).
  replace (r + 256 * q) with (r + q * 256) by lia.
  f_equal.
  - rewrite Z.mod_add by lia. apply Z.mod_small. exact Hr.
  - rewrite Z.div_add by lia. rewrite (Z.div_small r) by exact Hr.
    rewrite Z.add_0_l. apply IH.
Qed.

Lemma le_bytes4_u32 (x : Z) : le_bytes 4 (u32 x) = le_bytes 4 x.
Proof. apply (le_bytes_mod 4). Qed.

Lemma site_count_size_nonneg (sites : Z) :
  0 <= sites -> 0 <= prf_get_value_record_site_count_size sites.
Proof.
  intros H. unfold prf_get_value_record_site_count_size.
  assert (0 <= (sites + 7) / 8) by (apply Z.div_pos; lia). lia.
Qed.

(** ** The cursor *)

Lemma pos_prf_copy_buffer (b : wbuf) (src : list Z) (n : Z) :
  pos (prf_copy_buffer b src n) = pos b + n.
Proof. reflexivity. Qed.

(** A store inside a run of bytes that sits between [pre] and [post]. *)
Lemma store_bytes_middle (pre old post bs : list Z) :
  length bs = length old ->
  store_bytes (Z.of_nat (length pre)) bs (pre ++ old ++ post) = pre ++ bs ++ post.
Proof.
  intros Hlen. unfold store_bytes. rewrite Nat2Z.id.
  replace (length pre) with (length pre + 0)%nat by lia.
  rewrite list_inserts_app_r. f_equal.
  apply list_inserts_0_r. exact Hlen.
Qed.

(** A store at the start of a run of zero bytes. *)
Lemma store_bytes_zeros (pre post bs : list Z) (n : nat) :
  (length bs <= n)%nat ->
  store_bytes (Z.of_nat (length pre)) bs (pre ++ replicate n 0 ++ post)
  = pre ++ bs ++ replicate (n - length bs) 0 ++ post.
Proof.
  intros Hle.
  replace n with (length bs + (n - length bs))%nat at 1 by lia.
  rewrite replicate_add, <- (app_assoc (replicate (length bs) 0)).
  apply store_bytes_middle. rewrite length_replicate. reflexivity.
Qed.

(** ** The loop over the nodes of one site *)

(** The count the loop ends with: the length of the list, or 256 as soon
    as the list has more than 255 nodes. *)
Lemma count_nodes_spec (site : list llvm_prf_value_node) (count : Z) :
  0 <= count <= 255 ->
  count_nodes site count = Z.min (count + Z.of_nat (length site)) 256.
Proof.
  revert count. induction site as [|nd next IH]; intros count Hc.
  - simpl. lia.
  - cbn [count_nodes length]. rewrite u32_small by lia.
    unfold U8_MAX. destruct (Z.leb_spec (count + 1) 255) as [Hle|Hgt].
    + rewrite IH by lia. lia.
    + lia.
Qed.

Lemma write_nodes_count (site : list llvm_prf_value_node) (count : Z) (b : wbuf) :
  fst (write_nodes site count b) = count_nodes site count.
Proof.
  revert count b. induction site as [|nd next IH]; intros count b; [reflexivity|].
  cbn [write_nodes count_nodes]. destruct (_ <=? _); [apply IH|reflexivity].
Qed.

Lemma write_nodes_pos (site : list llvm_prf_value_node) (count : Z) (b : wbuf) :
  0 <= count <= 255 ->
  pos (snd (write_nodes site count b)) =
  pos b + nodes_copied site count * sizeof_llvm_prf_value_node_data.
Proof.
  unfold nodes_copied, sizeof_llvm_prf_value_node_data.
  revert count b. induction site as [|nd next IH]; intros count b Hc.
  - cbn [write_nodes snd length]. lia.
  - cbn [write_nodes length]. rewrite u32_small by lia.
    unfold U8_MAX. destruct (Z.leb_spec (count + 1) 255) as [Hle|Hgt].
    + rewrite IH by lia. rewrite pos_prf_copy_buffer.
      unfold sizeof_llvm_prf_value_node_data. lia.
    + cbn [snd]. lia.
Qed.

Lemma length_node_bytes (nd : llvm_prf_value_node) : length (node_bytes nd) = 16%nat.
Proof. reflexivity. Qed.

(** What the loop leaves in memory: the data of the first nodes of the
    list, one after the other, from the cursor on. *)
Lemma write_nodes_mem (site : list llvm_prf_value_node) (count : Z)
    (pre old post : list Z) :
  0 <= count <= 255 ->
  length old = (16 * Z.to_nat (nodes_copied site count))%nat ->
  snd (write_nodes site count {| mem := pre ++ old ++ post; pos := Z.of_nat (length pre) |})
  = {| mem := pre ++ mjoin (node_bytes <$> take (Z.to_nat (nodes_copied site count)) site) ++ post;
       pos := Z.of_nat (length pre) + nodes_copied site count * 16 |}.
Proof.
  unfold nodes_copied.
  revert count pre old. induction site as [|nd next IH]; intros count pre old Hc Hold.
  - cbn [length] in *. replace (Z.min (count + Z.of_nat 0) 255 - count) with 0 in * by lia.
    simpl in Hold. destruct old; [|discriminate]. simpl. f_equal. lia.
  - cbn [write_nodes length] in *. rewrite u32_small by lia.
    unfold U8_MAX. destruct (Z.leb_spec (count + 1) 255) as [Hle|Hgt].
    + replace (Z.min (count + Z.of_nat (S (length next))) 255 - count)
        with (Z.succ (Z.min (count + 1 + Z.of_nat (length next)) 255 - (count + 1)))
        in * by lia.
      set (k := Z.min (count + 1 + Z.of_nat (length next)) 255 - (count + 1)) in *.
      assert (Hk : 0 <= k) by lia.
      rewrite Z2Nat.inj_succ in * by lia.
      assert (Hsplit : old = take 16 old ++ drop 16 old) by (symmetry; apply take_drop).
      assert (Hl1 : length (take 16 old) = 16%nat) by (rewrite length_take; lia).
      assert (Hl2 : length (drop 16 old) = (16 * Z.to_nat k)%nat)
        by (rewrite length_drop; lia).
      rewrite Hsplit.
      unfold prf_copy_buffer, advance, poke. cbn [mem pos].
      unfold sizeof_llvm_prf_value_node_data.
      rewrite (take_ge (node_bytes nd)) by (rewrite length_node_bytes; lia).
      rewrite <- (app_assoc (take 16 old)).
      rewrite store_bytes_middle by (rewrite length_node_bytes, Hl1; reflexivity).
      replace (Z.of_nat (length pre) + 16)
        with (Z.of_nat (length (pre ++ node_bytes nd)))
        by (rewrite length_app, length_node_bytes; lia).
      rewrite (app_assoc pre (node_bytes nd)).
      rewrite (IH (count + 1) (pre ++ node_bytes nd) (drop 16 old)) by (lia || exact Hl2).
      cbn [take fmap list_fmap mjoin list_join].
      rewrite <- !app_assoc. f_equal.
      rewrite length_app, length_node_bytes. lia.
    + replace (Z.min (count + Z.of_nat (S (length next))) 255 - count) with 0 in * by lia.
      simpl in Hold. destruct old; [|discriminate]. simpl. f_equal. lia.
Qed.

(** ** The loop over the sites of one kind *)

Lemma size_sites_fold (arr : list (list llvm_prf_value_node)) (s : Z)
    (ns : list Z) (size : Z) :
  0 <= size < 2 ^ 32 ->
  foldl (size_site arr s) size ns =
  u32 (size + sumZ (fun n => site_bytes 256 (site_at arr (u32 (s + n)))) ns).
Proof.
  revert size. induction ns as [|n ns IH]; intros size Hsize.
  - simpl. rewrite Z.add_0_r, u32_small; [reflexivity|exact Hsize].
  - cbn [foldl sumZ foldr]. rewrite IH by apply u32_range.
    unfold size_site. rewrite u32_add_l.
    rewrite count_nodes_spec by lia. unfold site_bytes, sumZ.
    f_equal. lia.
Qed.

Lemma write_sites_pos (arr : list (list llvm_prf_value_node)) (s counts : Z)
    (ns : list Z) (b : wbuf) :
  pos (foldl (write_site arr s counts) b ns) =
  pos b + sumZ (fun n => site_bytes 255 (site_at arr (u32 (s + n)))) ns.
Proof.
  revert b. induction ns as [|n ns IH]; intros b.
  - simpl. lia.
  - cbn [foldl sumZ foldr]. rewrite IH. unfold write_site.
    pose proof (write_nodes_pos (site_at arr (u32 (s + n))) 0 b ltac:(lia)) as Hp.
    destruct (write_nodes _ 0 b) as [c b'] eqn:E. cbn [snd] in Hp. cbn [poke pos].
    rewrite Hp. unfold nodes_copied, site_bytes, sumZ. lia.
Qed.

(** ** The loop over the value kinds *)

Lemma kinds_present_cons (sites : Z) (rest : list Z) :
  kinds_present (sites :: rest) =
  (if sites =? 0 then 0 else 1) + kinds_present rest.
Proof.
  unfold kinds_present. rewrite filter_cons.
  destruct (Z.eqb_spec sites 0) as [->|Hne].
  - destruct (decide (0 ≠ 0)); [congruence|]. lia.
  - destruct (decide (sites ≠ 0)); [|contradiction].
    cbn [length]. lia.
Qed.

Lemma kinds_present_nonneg (nvs : list Z) : 0 <= kinds_present nvs.
Proof. unfold kinds_present. lia. Qed.

Lemma kinds_present_le (nvs : list Z) : kinds_present nvs <= Z.of_nat (length nvs).
Proof. unfold kinds_present. pose proof (length_filter (fun s => s ≠ 0) nvs). lia. Qed.

(** The variables of the size pass after the kinds in [rest]. *)
Lemma size_kinds_fold (nodes : option (list (list llvm_prf_value_node)))
    (rest : list Z) (v : size_vars) :
  0 <= sz_size v < 2 ^ 32 ->
  0 <= sz_kinds v < 2 ^ 32 ->
  let v' := foldl (size_kind nodes) v rest in
  sz_size v' = u32 (sz_size v + kinds_bytes 256 nodes rest (sz_s v)) /\
  sz_kinds v' = u32 (sz_kinds v + kinds_present rest).
Proof.
  revert v. induction rest as [|sites rest IH]; intros v Hs Hk.
  - cbn. rewrite !Z.add_0_r, !u32_small by assumption. split; reflexivity.
  - cbn [foldl kinds_bytes]. rewrite kinds_present_cons.
    unfold size_kind at 2 4.
    destruct (Z.eqb_spec sites 0) as [->|Hne].
    + apply IH; assumption.
    + destruct nodes as [arr|]; cbn zeta.
      * match goal with |- context [foldl (size_kind ?n) ?v0 rest] =>
          destruct (IH v0) as [IH1 IH2] end.
        { cbn [sz_size]. rewrite size_sites_fold by apply u32_range. apply u32_range. }
        { cbn [sz_kinds]. apply u32_range. }
        cbn zeta. rewrite IH1, IH2. cbn [sz_size sz_kinds sz_s].
        rewrite size_sites_fold by apply u32_range.
        rewrite !u32_add_l, <- !Z.add_assoc, u32_add_l.
        split; f_equal; lia.
      * match goal with |- context [foldl (size_kind ?n) ?v0 rest] =>
          destruct (IH v0) as [IH1 IH2] end.
        { cbn [sz_size]. apply u32_range. }
        { cbn [sz_kinds]. apply u32_range. }
        cbn zeta. rewrite IH1, IH2. cbn [sz_size sz_kinds sz_s].
        rewrite !u32_add_l. split; f_equal; lia.
Qed.

(** The size pass in closed form: the bytes of the kinds, each list
    counted for at most 256 nodes, plus the record header when that sum
    is not zero. *)
Lemma prf_get_value_size_spec (p : llvm_prf_data) :
  __prf_get_value_size p =
  (let raw := u32 (kinds_bytes 256 (values p) (num_value_sites p) 0) in
   (if raw =? 0 then 0 else u32 (raw + sizeof_llvm_prf_value_data)),
   u32 (kinds_present (num_value_sites p))).
Proof.
  unfold __prf_get_value_size.
  destruct (size_kinds_fold (values p) (num_value_sites p)
              {| sz_size := 0; sz_kinds := 0; sz_s := 0 |}) as [H1 H2];
    cbn [sz_size sz_kinds]; try lia.
  cbn zeta in *. rewrite H1, H2. cbn [sz_size sz_kinds sz_s].
  rewrite !Z.add_0_l. reflexivity.
Qed.

(** The cursor after the kinds in [rest]: each list written for at most
    255 nodes. *)
Lemma write_kinds_pos (nodes : option (list (list llvm_prf_value_node)))
    (rest : list Z) (kind s : Z) (b : wbuf) :
  pos (write_kinds nodes kind rest s b) = pos b + kinds_bytes 255 nodes rest s.
Proof.
  revert kind s b. induction rest as [|sites rest IH]; intros kind s b.
  - simpl. lia.
  - cbn [write_kinds kinds_bytes].
    destruct (Z.eqb_spec sites 0) as [->|Hne]; [apply IH|].
    destruct nodes as [arr|]; cbn zeta; rewrite IH.
    + rewrite write_sites_pos. cbn [advance poke pos].
      unfold prf_get_value_record_size. lia.
    + cbn [advance poke pos]. unfold prf_get_value_record_size. lia.
Qed.

(** The write pass moves the cursor by [emitted_bytes]. *)
Lemma prf_serialize_value_pos (p : llvm_prf_data) (b : wbuf) :
  pos (prf_serialize_value p b) = pos b + emitted_bytes p.
Proof.
  unfold prf_serialize_value, emitted_bytes.
  rewrite prf_get_value_size_spec. cbn zeta.
  destruct (u32 (kinds_present _) =? 0); [lia|].
  rewrite write_kinds_pos, pos_prf_copy_buffer. lia.
Qed.

Lemma prf_serialize_values_pos (data : list llvm_prf_data) (b : wbuf) :
  pos (prf_serialize_values data b) = pos b + sumZ emitted_bytes data.
Proof.
  unfold prf_serialize_values.
  revert b. induction data as [|p data IH]; intros b.
  - simpl. lia.
  - cbn [foldl sumZ foldr]. rewrite IH, prf_serialize_value_pos.
    unfold sumZ. lia.
Qed.

(** ** Where the two passes agree *)

Lemma site_bytes_nonneg (cap : Z) (site : list llvm_prf_value_node) :
  0 <= cap -> 0 <= site_bytes cap site.
Proof. intros H. unfold site_bytes, sizeof_llvm_prf_value_node_data. lia. Qed.

Lemma sumZ_nonneg {A : Type} (f : A -> Z) (l : list A) :
  (forall x, 0 <= f x) -> 0 <= sumZ f l.
Proof.
  intros Hf. induction l as [|x l IH]; cbn [sumZ foldr]; [lia|].
  specialize (Hf x). unfold sumZ in IH. lia.
Qed.

Lemma sumZ_ext {A : Type} (f g : A -> Z) (l : list A) :
  (forall x, f x = g x) -> sumZ f l = sumZ g l.
Proof.
  intros Hfg. induction l as [|x l IH]; cbn [sumZ foldr]; [reflexivity|].
  unfold sumZ in IH. rewrite IH, Hfg. reflexivity.
Qed.

(** Every kind with sites costs at least its record header. *)
Lemma kinds_bytes_lower (cap : Z) (nodes : option (list (list llvm_prf_value_node)))
    (rest : list Z) (s : Z) :
  0 <= cap ->
  Forall (fun sites => 0 <= sites) rest ->
  8 * kinds_present rest <= kinds_bytes cap nodes rest s.
Proof.
  intros Hcap Hrest. revert s.
  induction Hrest as [|sites rest Hs Hrest IH]; intros s.
  - cbn [kinds_bytes]. unfold kinds_present. rewrite filter_nil. cbn [length]. lia.
  - rewrite kinds_present_cons. cbn [kinds_bytes].
    destruct (Z.eqb_spec sites 0) as [->|Hne]; [specialize (IH s); lia|].
    pose proof (site_count_size_nonneg sites Hs) as Hc.
    unfold prf_get_value_record_size, prf_get_value_record_header_size.
    destruct nodes as [arr|].
    + pose proof (sumZ_nonneg
        (fun n => site_bytes cap (site_at arr (u32 (s + n)))) (seqZ 0 sites)
        (fun n => site_bytes_nonneg cap _ Hcap)).
      specialize (IH (u32 (s + sites))). lia.
    + specialize (IH s). lia.
Qed.

Lemma kinds_bytes_none_present (cap : Z)
    (nodes : option (list (list llvm_prf_value_node))) (rest : list Z) (s : Z) :
  kinds_present rest = 0 -> kinds_bytes cap nodes rest s = 0.
Proof.
  revert s. induction rest as [|sites rest IH]; intros s; [reflexivity|].
  rewrite kinds_present_cons. cbn [kinds_bytes].
  pose proof (kinds_present_nonneg rest).
  destruct (Z.eqb_spec sites 0) as [->|Hne]; [|lia].
  intros H0. apply IH. lia.
Qed.

Lemma site_at_short (arr : list (list llvm_prf_value_node)) (i : Z) :
  Forall (fun site => (length site <= 255)%nat) arr ->
  (length (site_at arr i) <= 255)%nat.
Proof.
  intros Harr. unfold site_at.
  destruct (arr !! Z.to_nat i) as [site|] eqn:E; cbn; [|lia].
  rewrite Forall_lookup in Harr. exact (Harr _ _ E).
Qed.

(** With no list longer than 255 nodes both caps count the same bytes. *)
Lemma kinds_bytes_short (p : llvm_prf_data) (rest : list Z) (s : Z) :
  short_lists p ->
  kinds_bytes 255 (values p) rest s = kinds_bytes 256 (values p) rest s.
Proof.
  unfold short_lists. destruct (values p) as [arr|]; intros Hshort; revert s;
    induction rest as [|sites rest IH]; intros s; cbn [kinds_bytes];
    try reflexivity; destruct (sites =? 0); rewrite ?IH; try reflexivity.
  f_equal. f_equal. apply sumZ_ext. intros n.
  pose proof (site_at_short arr (u32 (s + n)) Hshort).
  unfold site_bytes. f_equal. lia.
Qed.

(** Size/write agreement for records whose lists stay within the cap and
    whose size fits the [u32] accumulator. *)
Lemma size_write_agree_short (p : llvm_prf_data) (b : wbuf) :
  short_lists p ->
  Forall (fun sites => 0 <= sites) (num_value_sites p) ->
  Z.of_nat (length (num_value_sites p)) < 2 ^ 32 ->
  sizeof_llvm_prf_value_data + kinds_bytes 256 (values p) (num_value_sites p) 0 < 2 ^ 32 ->
  fst (__prf_get_value_size p) = pos (prf_serialize_value p b) - pos b.
Proof.
  intros Hshort Hsites Hlen Hfit.
  rewrite prf_serialize_value_pos, prf_get_value_size_spec.
  unfold emitted_bytes. rewrite (kinds_bytes_short p _ _ Hshort).
  cbn zeta. cbn [fst].
  pose proof (kinds_bytes_lower 256 (values p) _ 0 ltac:(lia) Hsites) as Hlow.
  pose proof (kinds_present_nonneg (num_value_sites p)) as Hk0.
  pose proof (kinds_present_le (num_value_sites p)) as Hk1.
  unfold sizeof_llvm_prf_value_data in *.
  rewrite (u32_small (kinds_present _)) by lia.
  rewrite (u32_small (kinds_bytes _ _ _ _)) by lia.
  destruct (Z.eqb_spec (kinds_present (num_value_sites p)) 0) as [H0|Hn0].
  - rewrite (kinds_bytes_none_present _ _ _ _ H0). cbn. lia.
  - destruct (Z.eqb_spec (kinds_bytes 256 (values p) (num_value_sites p) 0) 0);
      [lia|].
    rewrite u32_small by lia. lia.
Qed.

Lemma size_write_agree_short_witness :
  fst (__prf_get_value_size (one_site_record 255)) =
  pos (prf_serialize_value (one_site_record 255) (zero_buffer 0)) - 0.
Proof.
  apply (size_write_agree_short (one_site_record 255) (zero_buffer 0)).
  - unfold short_lists. cbn [values one_site_record].
    constructor; [rewrite length_replicate; lia|constructor].
  - repeat constructor; lia.
  - cbn. lia.
  - vm_compute. reflexivity.
Defined.

(** ** The gap between the two passes *)

Lemma sumZ_add {A : Type} (f g : A -> Z) (l : list A) :
  sumZ (fun x => f x + g x) l = sumZ f l + sumZ g l.
Proof.
  induction l as [|x l IH]; cbn [sumZ foldr]; [reflexivity|].
  unfold sumZ in IH. rewrite IH. lia.
Qed.

Lemma sumZ_scale {A : Type} (c : Z) (f : A -> Z) (l : list A) :
  sumZ (fun x => c * f x) l = c * sumZ f l.
Proof.
  induction l as [|x l IH]; cbn [sumZ foldr]; [lia|].
  unfold sumZ in IH. rewrite IH. lia.
Qed.

Lemma site_bytes_256 (site : list llvm_prf_value_node) :
  site_bytes 256 site = site_bytes 255 site + 16 * long_site site.
Proof.
  unfold site_bytes, long_site, sizeof_llvm_prf_value_node_data.
  destruct (Z.ltb_spec 255 (Z.of_nat (length site))); lia.
Qed.

(** The size pass counts one node more than the write pass emits for
    every visited site with more than 255 nodes. *)
Lemma kinds_bytes_256 (nodes : option (list (list llvm_prf_value_node)))
    (rest : list Z) (s : Z) :
  kinds_bytes 256 nodes rest s =
  kinds_bytes 255 nodes rest s + 16 * long_sites nodes rest s.
Proof.
  revert s. induction rest as [|sites rest IH]; intros s; [reflexivity|].
  cbn [kinds_bytes long_sites]. destruct (sites =? 0); [apply IH|].
  destruct nodes as [arr|]; rewrite IH; [|lia].
  rewrite (sumZ_ext _ (fun n => site_bytes 255 (site_at arr (u32 (s + n))) +
                                16 * long_site (site_at arr (u32 (s + n)))))
    by (intros n; apply site_bytes_256).
  rewrite sumZ_add, sumZ_scale. lia.
Qed.

Lemma long_sites_nonneg (nodes : option (list (list llvm_prf_value_node)))
    (rest : list Z) (s : Z) :
  0 <= long_sites nodes rest s.
Proof.
  revert s. induction rest as [|sites rest IH]; intros s; cbn [long_sites]; [lia|].
  destruct (sites =? 0); [apply IH|]. destruct nodes as [arr|]; [|apply IH].
  pose proof (sumZ_nonneg (fun n => long_site (site_at arr (u32 (s + n))))
                (seqZ 0 sites)) as Hs.
  specialize (IH (u32 (s + sites))).
  assert (0 <= sumZ (fun n => long_site (site_at arr (u32 (s + n)))) (seqZ 0 sites)).
  { apply Hs. intros n. unfold long_site. destruct (_ <? _); lia. }
  lia.
Qed.

(** As long as nothing wraps, the size the size pass returns exceeds the
    bytes the write pass emits by one node per visited site with more
    than 255 nodes. *)
Lemma size_minus_write (p : llvm_prf_data) (b : wbuf) :
  Forall (fun sites => 0 <= sites) (num_value_sites p) ->
  Z.of_nat (length (num_value_sites p)) < 2 ^ 32 ->
  sizeof_llvm_prf_value_data + kinds_bytes 256 (values p) (num_value_sites p) 0 < 2 ^ 32 ->
  fst (__prf_get_value_size p) =
  pos (prf_serialize_value p b) - pos b +
  sizeof_llvm_prf_value_node_data * long_sites (values p) (num_value_sites p) 0.
Proof.
  intros Hsites Hlen Hfit.
  rewrite prf_serialize_value_pos, prf_get_value_size_spec.
  unfold emitted_bytes. cbn zeta. cbn [fst].
  pose proof (kinds_bytes_lower 256 (values p) _ 0 ltac:(lia) Hsites) as Hlow.
  pose proof (kinds_present_nonneg (num_value_sites p)) as Hk0.
  pose proof (kinds_present_le (num_value_sites p)) as Hk1.
  pose proof (kinds_bytes_256 (values p) (num_value_sites p) 0) as Hgap.
  unfold sizeof_llvm_prf_value_data, sizeof_llvm_prf_value_node_data in *.
  rewrite (u32_small (kinds_present _)) by lia.
  rewrite (u32_small (kinds_bytes _ _ _ _)) by lia.
  destruct (Z.eqb_spec (kinds_present (num_value_sites p)) 0) as [H0|Hn0].
  - pose proof (kinds_bytes_none_present 256 (values p) _ 0 H0) as Hz256.
    pose proof (kinds_bytes_none_present 255 (values p) _ 0 H0) as Hz255.
    rewrite Hz256 in *. cbn. lia.
  - destruct (Z.eqb_spec (kinds_bytes 256 (values p) (num_value_sites p) 0) 0);
      [lia|].
    rewrite u32_small by lia. lia.
Qed.

(** The write pass stays within what the size pass reserved. *)
Lemma write_within_size (p : llvm_prf_data) (b : wbuf) :
  Forall (fun sites => 0 <= sites) (num_value_sites p) ->
  Z.of_nat (length (num_value_sites p)) < 2 ^ 32 ->
  sizeof_llvm_prf_value_data + kinds_bytes 256 (values p) (num_value_sites p) 0 < 2 ^ 32 ->
  pos (prf_serialize_value p b) - pos b <= fst (__prf_get_value_size p).
Proof.
  intros Hsites Hlen Hfit.
  rewrite (size_minus_write p b Hsites Hlen Hfit).
  pose proof (long_sites_nonneg (values p) (num_value_sites p) 0).
  unfold sizeof_llvm_prf_value_node_data. lia.
Qed.

(** ** Size pass against write pass on a long list *)

(** C1 (as the code has it): for a record with one site whose list has
    300 nodes, [__prf_get_value_size] returns 4120 bytes (record header,
    kind record, and 256 nodes of 16 bytes) while [prf_serialize_value]
    moves the cursor by 4104 bytes (255 nodes): the size pass counts one
    node more than the write pass emits. *)
Theorem size_pass_counts_256_write_pass_emits_255 (b : wbuf) :
  fst (__prf_get_value_size (one_site_record 300)) = 4120 /\
  pos (prf_serialize_value (one_site_record 300) b) - pos b = 4104.
Proof.
  split.
  - vm_compute. reflexivity.
  - rewrite prf_serialize_value_pos.
    replace (emitted_bytes (one_site_record 300)) with 4104
      by (vm_compute; reflexivity).
    lia.
Qed.

(** ** The count byte and the payloads of one site *)

Lemma u8_count (len : Z) :
  0 <= len -> u8 (Z.min len 256) = if len <=? 255 then len else 0.
Proof.
  intros H. unfold u8. destruct (Z.leb_spec len 255).
  - rewrite Z.min_l by lia. apply Z.mod_small. lia.
  - rewrite Z.min_r by lia. reflexivity.
Qed.

(** One iteration of the site loop, on a buffer laid out as
    [head ++ [c] ++ gap ++ old ++ post] with the count byte [c] of the
    site at the end of [head] and the cursor at [old]: the first
    [min(length, 255)] nodes replace [old], and the count byte is the
    length of the list when it is at most 255 and 0 otherwise (the
    counter stops at 256, whose low byte is 0). *)
Lemma write_site_spec (arr : list (list llvm_prf_value_node)) (s counts n c : Z)
    (head gap old post : list Z) :
  let site := site_at arr (u32 (s + n)) in
  let len := Z.of_nat (length site) in
  let k := Z.to_nat (Z.min len 255) in
  counts + n = Z.of_nat (length head) ->
  length old = (16 * k)%nat ->
  write_site arr s counts
    {| mem := head ++ [c] ++ gap ++ old ++ post;
       pos := Z.of_nat (length (head ++ [c] ++ gap)) |} n
  = {| mem := head ++ [if len <=? 255 then len else 0] ++ gap ++
              mjoin (node_bytes <$> take k site) ++ post;
       pos := Z.of_nat (length (head ++ [c] ++ gap)) + Z.of_nat k * 16 |}.
Proof.
  intros site len k Hcounts Hold. unfold write_site. fold site.
  pose proof (write_nodes_count site 0
    {| mem := head ++ [c] ++ gap ++ old ++ post;
       pos := Z.of_nat (length (head ++ [c] ++ gap)) |}) as Hc.
  pose proof (write_nodes_mem site 0 (head ++ [c] ++ gap) old post ltac:(lia)) as Hm.
  assert (Hcopied : nodes_copied site 0 = Z.min len 255)
    by (unfold nodes_copied; fold len; lia).
  rewrite Hcopied in Hm. fold k in Hm. specialize (Hm Hold).
  rewrite <- !app_assoc in Hm.
  destruct (write_nodes site 0 _) as [cnt b'].
  cbn [fst snd] in Hc, Hm. subst b' cnt.
  rewrite count_nodes_spec by lia. rewrite Z.add_0_l. fold len.
  rewrite u8_count by lia.
  unfold poke. cbn [mem pos]. rewrite Hcounts.
  rewrite (store_bytes_middle head [c]) by reflexivity.
  f_equal. unfold k. lia.
Qed.

(** C2 (as the code has it): a record with one site whose list has 300
    nodes is written as record header (total size 4120, one kind), kind
    record (kind 0, one site) with a count array whose first byte is 0,
    and exactly 255 node payloads; the cursor stops after the 255th
    payload and the 16 bytes behind it are still zero. *)
Theorem long_list_255_payloads_count_byte_0 :
  let b := prf_serialize_value (one_site_record 300) (zero_buffer 4120) in
  load_u32 0 (mem b) = 4120 /\
  load_u32 4 (mem b) = 1 /\
  load_u32 8 (mem b) = 0 /\
  load_u32 12 (mem b) = 1 /\
  load_bytes 16 1 (mem b) = [0] /\
  load_bytes 24 (255 * 16) (mem b) = mjoin (replicate 255 (node_bytes sample_node)) /\
  load_bytes (24 + 255 * 16) 16 (mem b) = replicate 16 0 /\
  pos b = 24 + 255 * 16.
Proof. vm_compute. repeat split; reflexivity. Qed.

(** ** A record without sites *)

Lemma size_kinds_all_zero (nodes : option (list (list llvm_prf_value_node)))
    (rest : list Z) (v : size_vars) :
  Forall (fun sites => sites = 0) rest ->
  foldl (size_kind nodes) v rest = v.
Proof.
  intros H. induction H as [|sites rest -> _ IH]; [reflexivity|].
  cbn [foldl]. unfold size_kind at 2. cbn. exact IH.
Qed.

(** C4: when every value kind of a record has a zero site count, the size
    pass returns size 0 and 0 kinds, and the write pass returns the
    buffer and its cursor as it found them (no byte stored, no record
    header, no advance). *)
Theorem skip_on_empty (p : llvm_prf_data) (b : wbuf) :
  Forall (fun sites => sites = 0) (num_value_sites p) ->
  __prf_get_value_size p = (0, 0) /\ prf_serialize_value p b = b.
Proof.
  intros Hzero.
  assert (Hsize : __prf_get_value_size p = (0, 0)).
  { unfold __prf_get_value_size.
    rewrite (size_kinds_all_zero _ _ _ Hzero). reflexivity. }
  split; [exact Hsize|].
  unfold prf_serialize_value. rewrite Hsize. reflexivity.
Qed.

Lemma skip_on_empty_witness :
  let p := {| values := Some [[sample_node]]; num_value_sites := [0; 0] |} in
  Forall (fun sites => sites = 0) (num_value_sites p) /\
  __prf_get_value_size p = (0, 0) /\
  prf_serialize_value p (zero_buffer 8) = zero_buffer 8.
Proof.
  split.
  - repeat constructor.
  - apply skip_on_empty. repeat constructor.
Defined.

(** ** A record without site array *)

Lemma null_values_size_cons (sites : Z) (rest : list Z) :
  null_values_size (sites :: rest) =
  (if sites =? 0 then 0 else prf_get_value_record_size sites) + null_values_size rest.
Proof.
  unfold null_values_size. rewrite filter_cons.
  destruct (Z.eqb_spec sites 0) as [->|Hne].
  - destruct (decide (0 ≠ 0)); [congruence|]. lia.
  - destruct (decide (sites ≠ 0)); [|contradiction]. reflexivity.
Qed.

Lemma kinds_bytes_null (cap : Z) (rest : list Z) (s : Z) :
  kinds_bytes cap None rest s = null_values_size rest.
Proof.
  induction rest as [|sites rest IH]; [reflexivity|].
  rewrite null_values_size_cons. cbn [kinds_bytes].
  destruct (sites =? 0); lia.
Qed.

Lemma null_values_size_nonneg (rest : list Z) :
  Forall (fun sites => 0 <= sites) rest -> 0 <= null_values_size rest.
Proof.
  intros H. rewrite <- (kinds_bytes_null 0 rest 0).
  pose proof (kinds_bytes_lower 0 None rest 0 ltac:(lia) H).
  pose proof (kinds_present_nonneg rest). lia.
Qed.

Lemma length_null_values_records (kind : Z) (rest : list Z) :
  Forall (fun sites => 0 <= sites) rest ->
  Z.of_nat (length (null_values_records kind rest)) = null_values_size rest.
Proof.
  intros H. revert kind. induction H as [|sites rest Hs _ IH]; intros kind.
  - reflexivity.
  - rewrite null_values_size_cons. cbn [null_values_records].
    destruct (Z.eqb_spec sites 0) as [->|Hne]; [rewrite IH; lia|].
    rewrite !length_app, !length_le_bytes, length_replicate.
    rewrite !Nat2Z.inj_add, IH.
    rewrite Z2Nat.id by (apply site_count_size_nonneg; exact Hs).
    unfold prf_get_value_record_size, prf_get_value_record_header_size. lia.
Qed.

Lemma poke_zeros (pre post bs : list Z) (n : nat) (q : Z) :
  (length bs <= n)%nat ->
  poke {| mem := pre ++ replicate n 0 ++ post; pos := q |} (Z.of_nat (length pre)) bs
  = {| mem := pre ++ bs ++ replicate (n - length bs) 0 ++ post; pos := q |}.
Proof. intros H. unfold poke. cbn [mem pos]. rewrite store_bytes_zeros by exact H. reflexivity. Qed.

(** The kind loop on a zero-filled stretch of the buffer when the site
    array is NULL: tag and site count of every kind with sites are
    stored, its count array is stepped over and stays zero. *)
Lemma write_kinds_null (rest : list Z) (kind kind' s : Z)
    (pre post : list Z) (n : nat) :
  Forall (fun sites => 0 <= sites) rest ->
  u32 kind = u32 kind' ->
  null_values_size rest <= Z.of_nat n ->
  write_kinds None kind rest s
    {| mem := pre ++ replicate n 0 ++ post; pos := Z.of_nat (length pre) |}
  = {| mem := pre ++ null_values_records kind' rest ++
              replicate (n - Z.to_nat (null_values_size rest)) 0 ++ post;
       pos := Z.of_nat (length pre) + null_values_size rest |}.
Proof.
  intros Hrest. revert kind kind' pre n.
  induction Hrest as [|sites rest Hs Hrest IH]; intros kind kind' pre n Hkind Hroom.
  - cbn. rewrite Nat.sub_0_r, Z.add_0_r. reflexivity.
  - assert (Hnext : u32 (u32 (kind + 1)) = u32 (kind' + 1)).
    { rewrite (u32_small (u32 _)) by apply u32_range.
      rewrite <- (u32_add_l kind), <- (u32_add_l kind'), Hkind. reflexivity. }
    rewrite null_values_size_cons in *. cbn [write_kinds null_values_records].
    destruct (Z.eqb_spec sites 0) as [->|Hne].
    { rewrite (IH _ (kind' + 1) pre n Hnext) by lia. reflexivity. }
    pose proof (site_count_size_nonneg sites Hs) as Hc.
    pose proof (null_values_size_nonneg rest Hrest) as Hr.
    unfold prf_get_value_record_size, prf_get_value_record_header_size in *.
    set (c := prf_get_value_record_site_count_size sites) in *.
    cbn zeta. unfold advance at 2. cbn [mem pos].
    rewrite poke_zeros by (rewrite length_le_bytes; lia).
    rewrite length_le_bytes.
    replace (Z.of_nat (length pre) + 4)
      with (Z.of_nat (length (pre ++ le_bytes 4 kind)))
      by (rewrite length_app, length_le_bytes; lia).
    rewrite (app_assoc pre (le_bytes 4 kind)).
    rewrite poke_zeros by (rewrite length_le_bytes; lia).
    rewrite length_le_bytes. unfold advance. cbn [mem pos].
    replace (n - 4 - 4)%nat with (Z.to_nat c + (n - 8 - Z.to_nat c))%nat by lia.
    rewrite replicate_add.
    set (pre' := (pre ++ le_bytes 4 kind) ++ le_bytes 4 sites ++ replicate (Z.to_nat c) 0).
    replace ((pre ++ le_bytes 4 kind) ++ le_bytes 4 sites ++
             (replicate (Z.to_nat c) 0 ++ replicate (n - 8 - Z.to_nat c) 0) ++ post)
      with (pre' ++ replicate (n - 8 - Z.to_nat c) 0 ++ post)
      by (unfold pre'; rewrite <- !app_assoc; reflexivity).
    assert (Hpre' : Z.of_nat (length pre') = Z.of_nat (length pre) + 8 + c).
    { unfold pre'. rewrite !length_app, !length_le_bytes, length_replicate. lia. }
    replace (Z.of_nat (length pre) + 8 + c) with (Z.of_nat (length pre')) by lia.
    rewrite (IH _ (kind' + 1) pre' _ Hnext) by lia.
    f_equal; [|lia].
    unfold pre'. rewrite <- !app_assoc.
    rewrite <- (le_bytes4_u32 kind), Hkind, le_bytes4_u32.
    replace (n - Z.to_nat (8 + c + null_values_size rest))%nat
      with (n - 8 - Z.to_nat c - Z.to_nat (null_values_size rest))%nat by lia.
    reflexivity.
Qed.

(** C5: a record whose site array is NULL and which has a kind with a
    nonzero site count, written to a zero-filled stretch of the buffer.
    The size pass counts the record header and, for every kind with
    sites, its record header and count array; the write pass emits
    exactly these bytes: the record header, then per kind with sites its
    tag, its site count and a count array of zero bytes.  No node data
    follows, and the rest of the stretch is still zero. *)
Theorem null_values_record (p : llvm_prf_data) (pre post : list Z) (n : nat) :
  values p = None ->
  Forall (fun sites => 0 <= sites) (num_value_sites p) ->
  Exists (fun sites => sites ≠ 0) (num_value_sites p) ->
  Z.of_nat (length (num_value_sites p)) < 2 ^ 32 ->
  let size := sizeof_llvm_prf_value_data + null_values_size (num_value_sites p) in
  let kinds := kinds_present (num_value_sites p) in
  size < 2 ^ 32 ->
  size <= Z.of_nat n ->
  __prf_get_value_size p = (size, kinds) /\
  prf_serialize_value p
    {| mem := pre ++ replicate n 0 ++ post; pos := Z.of_nat (length pre) |}
  = {| mem := pre ++
              (value_data_bytes size kinds ++
               null_values_records 0 (num_value_sites p)) ++
              replicate (n - Z.to_nat size) 0 ++ post;
       pos := Z.of_nat (length pre) + size |}.
Proof.
  intros Hnull Hsites Hex Hlen size kinds Hfit Hroom.
  pose proof (null_values_size_nonneg _ Hsites) as Hnv.
  pose proof (kinds_present_le (num_value_sites p)) as Hkle.
  assert (Hkpos : 0 < kinds).
  { unfold kinds, kinds_present.
    apply Exists_exists in Hex as (sites & Hin & Hne).
    assert (Hf : sites ∈ filter (fun sites => sites ≠ 0) (num_value_sites p))
      by (apply list_elem_of_filter; split; assumption).
    destruct (filter _ _); [inversion Hf|]. cbn [length]. lia. }
  pose proof (kinds_bytes_lower 256 None _ 0 ltac:(lia) Hsites) as Hlow.
  rewrite kinds_bytes_null in Hlow. fold kinds in Hlow, Hkle.
  unfold sizeof_llvm_prf_value_data in *.
  assert (Hsize : __prf_get_value_size p = (size, kinds)).
  { rewrite prf_get_value_size_spec, Hnull, kinds_bytes_null. cbn zeta.
    fold kinds. rewrite (u32_small kinds) by lia.
    rewrite (u32_small (null_values_size _)) by lia.
    destruct (Z.eqb_spec (null_values_size (num_value_sites p)) 0); [lia|].
    unfold sizeof_llvm_prf_value_data. rewrite u32_small by lia.
    f_equal. unfold size. lia. }
  split; [exact Hsize|].
  unfold prf_serialize_value. rewrite Hsize.
  destruct (Z.eqb_spec kinds 0); [lia|].
  unfold prf_copy_buffer, sizeof_llvm_prf_value_data. cbn [pos].
  rewrite take_ge by (unfold value_data_bytes; rewrite length_app, !length_le_bytes; lia).
  assert (Hhdr : length (value_data_bytes size kinds) = 8%nat)
    by (unfold value_data_bytes; rewrite length_app, !length_le_bytes; reflexivity).
  rewrite poke_zeros by lia. unfold advance. cbn [mem pos]. rewrite Hhdr, Hnull.
  replace (Z.of_nat (length pre) + 8)
    with (Z.of_nat (length (pre ++ value_data_bytes size kinds)))
    by (rewrite length_app, Hhdr; lia).
  rewrite (app_assoc pre (value_data_bytes size kinds)).
  rewrite (write_kinds_null _ 0 0 0) by (reflexivity || assumption || lia).
  rewrite <- !app_assoc, length_app, Hhdr.
  f_equal; [|unfold size; lia].
  replace (n - 8 - Z.to_nat (null_values_size (num_value_sites p)))%nat
    with (n - Z.to_nat size)%nat by (unfold size; lia).
  reflexivity.
Qed.

Lemma null_values_record_witness :
  let p := {| values := None; num_value_sites := [3; 0; 9] |} in
  __prf_get_value_size p = (48, 2) /\
  prf_serialize_value p {| mem := [255] ++ replicate 50 0 ++ [255]; pos := 1 |}
  = {| mem := [255] ++
              ([48; 0; 0; 0; 2; 0; 0; 0] ++
               [0; 0; 0; 0; 3; 0; 0; 0] ++ replicate 8 0 ++
               [2; 0; 0; 0; 9; 0; 0; 0] ++ replicate 16 0) ++
              replicate 2 0 ++ [255];
       pos := 49 |}.
Proof.
  apply (null_values_record {| values := None; num_value_sites := [3; 0; 9] |}
           [255] [255] 50).
  - reflexivity.
  - repeat constructor; lia.
  - constructor. lia.
  - cbn. lia.
  - vm_compute. reflexivity.
  - vm_compute. discriminate.
Defined.

(** ** The header *)

Lemma poke_next (pre rest post bs : list Z) (q : Z) :
  (length bs <= length rest)%nat ->
  poke {| mem := pre ++ rest ++ post; pos := q |} (Z.of_nat (length pre)) bs
  = {| mem := (pre ++ bs) ++ drop (length bs) rest ++ post; pos := q |}.
Proof.
  intros Hle. unfold poke. cbn [mem pos].
  rewrite <- (take_drop (length bs) rest) at 1.
  rewrite <- (app_assoc (take _ rest)).
  rewrite store_bytes_middle by (rewrite length_take; lia).
  rewrite <- app_assoc. reflexivity.
Qed.

(** One member assignment of [prf_fill_header]: the offset of the member
    is where the members stored so far end. *)
Ltac store_member :=
  match goal with
  | |- context [poke {| mem := ?pre ++ ?rest ++ ?post; pos := ?q |} ?off ?bs] =>
      replace off with (Z.of_nat (length pre))
        by (rewrite ?length_app, ?length_le_bytes; lia);
      rewrite (poke_next pre rest post bs q)
        by (rewrite ?length_drop, ?length_le_bytes; lia);
      rewrite !length_le_bytes
  end.

(** C8 (as the code has it): [prf_fill_header], run with the cursor at
    80 bytes [old] of the buffer, replaces them by the image of a header
    whose members are the magic constant, the variant flag or-ed with
    the base version, in [data_size], [counters_size] and [names_size]
    what the count accessors [prf_data_count()], [prf_cnts_count()] and
    [prf_names_count()] return, the two reserved padding lengths at
    zero, the start addresses of the counters and of the names as
    deltas, and the highest value kind; the bytes around are kept and
    the cursor moves by the size of the header. *)
Theorem prf_fill_header_layout
    (LLVM_PRF_MAGIC LLVM_PRF_VERSION LLVM_PRF_VARIANT_MASK_IR LLVM_PRF_IPVK_LAST : Z)
    (s : prf_sections) (pre old post : list Z) :
  length old = 80%nat ->
  prf_fill_header LLVM_PRF_MAGIC LLVM_PRF_VERSION LLVM_PRF_VARIANT_MASK_IR
    LLVM_PRF_IPVK_LAST s
    {| mem := pre ++ old ++ post; pos := Z.of_nat (length pre) |}
  = {| mem := pre ++
              header_bytes
                {| magic := LLVM_PRF_MAGIC;
                   version := Z.lor LLVM_PRF_VARIANT_MASK_IR LLVM_PRF_VERSION;
                   data_size := prf_data_count s;
                   padding_bytes_before_counters := 0;
                   counters_size := prf_cnts_count s;
                   padding_bytes_after_counters := 0;
                   names_size := prf_names_count s;
                   counters_delta := __llvm_prf_cnts_start s;
                   names_delta := __llvm_prf_names_start s;
                   value_kind_last := LLVM_PRF_IPVK_LAST |} ++
              post;
       pos := Z.of_nat (length pre) + sizeof_llvm_prf_header |}.
Proof.
  intros Hold. unfold prf_fill_header. cbn [pos]. cbn zeta.
  do 10 store_member.
  unfold advance. cbn [mem pos]. f_equal.
  match goal with |- context [drop 8 ?l ++ post] =>
    replace (drop 8 l) with (@nil Z)
      by (symmetry; apply nil_length_inv; rewrite !length_drop; lia)
  end.
  unfold header_bytes.
  cbn [magic version data_size padding_bytes_before_counters counters_size
       padding_bytes_after_counters names_size counters_delta names_delta
       value_kind_last].
  rewrite <- !app_assoc. reflexivity.
Qed.

Lemma prf_fill_header_layout_witness :
  let s := one_record_sections 1 in
  prf_fill_header 1000 5 (2 ^ 56) 1 s {| mem := [9] ++ replicate 80 7 ++ [9]; pos := 1 |}
  = {| mem := [9] ++
              header_bytes
                {| magic := 1000; version := Z.lor (2 ^ 56) 5; data_size := 1;
                   padding_bytes_before_counters := 0; counters_size := 1;
                   padding_bytes_after_counters := 0; names_size := 3;
                   counters_delta := 4096; names_delta := 8192;
                   value_kind_last := 1 |} ++ [9];
       pos := 81 |}.
Proof.
  apply (prf_fill_header_layout 1000 5 (2 ^ 56) 1 (one_record_sections 1)
           [9] (replicate 80 7) [9]).
  reflexivity.
Defined.

(** C8, refuted: for sections with one record of 48 bytes, one counter
    of 8 bytes and 3 bytes of names, whose count accessors return 1, 1
    and 3, [prf_fill_header] stores 1, 1 and 3 in [data_size],
    [counters_size] and [names_size]: the first two are not the 48 and
    8 bytes that [prf_data_size()] and [prf_cnts_size()] give for the
    regions and that size the blob. *)
Lemma header_holds_counts_not_region_sizes :
  let s := one_record_sections 1 in
  let b := prf_fill_header 1000 5 (2 ^ 56) 1 s (zero_buffer 80) in
  (prf_data_size s = 48 /\ prf_cnts_size s = 8 /\ prf_names_size s = 3) /\
  (load_u64 16 (mem b) = 1 /\ load_u64 32 (mem b) = 1 /\ load_u64 48 (mem b) = 3) /\
  load_u64 16 (mem b) <> prf_data_size s /\
  load_u64 32 (mem b) <> prf_cnts_size s.
Proof. vm_compute. repeat split; discriminate. Qed.

(** A [u64] member read back from the image of the header. *)
Lemma header_bytes_members (h : llvm_prf_header) :
  load_u64 0 (header_bytes h) = u64 (magic h) /\
  load_u64 8 (header_bytes h) = u64 (version h) /\
  load_u64 16 (header_bytes h) = u64 (data_size h) /\
  load_u64 24 (header_bytes h) = u64 (padding_bytes_before_counters h) /\
  load_u64 32 (header_bytes h) = u64 (counters_size h) /\
  load_u64 40 (header_bytes h) = u64 (padding_bytes_after_counters h) /\
  load_u64 48 (header_bytes h) = u64 (names_size h) /\
  load_u64 56 (header_bytes h) = u64 (counters_delta h) /\
  load_u64 64 (header_bytes h) = u64 (names_delta h) /\
  load_u64 72 (header_bytes h) = u64 (value_kind_last h).
Proof.
  unfold load_u64, u64.
  repeat split;
    match goal with |- le_value (load_bytes _ _ _) = ?x mod _ =>
      change (le_value (le_bytes 8 x) = x mod 256 ^ Z.of_nat 8);
      apply le_value_le_bytes
    end.
Qed.

(** ** The blob: allocation size against final cursor *)

Section blob.

Variables (LLVM_PRF_MAGIC LLVM_PRF_VERSION : Z).
Variables (LLVM_PRF_VARIANT_MASK_IR LLVM_PRF_IPVK_LAST : Z).

Local Abbreviation fill_buffer :=
  (prf_fill_buffer LLVM_PRF_MAGIC LLVM_PRF_VERSION LLVM_PRF_VARIANT_MASK_IR
     LLVM_PRF_IPVK_LAST).
Local Abbreviation serialize :=
  (prf_serialize LLVM_PRF_MAGIC LLVM_PRF_VERSION LLVM_PRF_VARIANT_MASK_IR
     LLVM_PRF_IPVK_LAST).
Local Abbreviation open :=
  (prf_open LLVM_PRF_MAGIC LLVM_PRF_VERSION LLVM_PRF_VARIANT_MASK_IR
     LLVM_PRF_IPVK_LAST).

(** Where the cursor stands at the [out:] label of a successful
    [prf_serialize]. *)
Lemma prf_fill_buffer_pos (s : prf_sections) (zeroed : list Z) :
  pos (fill_buffer s zeroed) =
  sizeof_llvm_prf_header + prf_data_size s + prf_cnts_size s + prf_names_size s +
  prf_get_padding (prf_names_size s) + sumZ emitted_bytes (__llvm_prf_data s).
Proof.
  unfold prf_fill_buffer. cbn zeta. rewrite prf_serialize_values_pos.
  change (pos (advance ?b ?n)) with (pos b + n).
  rewrite !pos_prf_copy_buffer.
  change (pos (prf_fill_header _ _ _ _ s ?b)) with (pos b + sizeof_llvm_prf_header).
  cbn [pos]. lia.
Qed.

Lemma prf_get_value_size_fold (data : list llvm_prf_data) (acc : Z) :
  0 <= acc < 2 ^ 32 ->
  foldl (fun size p => u32 (size + fst (__prf_get_value_size p))) acc data =
  u32 (acc + sumZ (fun p => fst (__prf_get_value_size p)) data).
Proof.
  revert acc. induction data as [|p data IH]; intros acc Hacc.
  - cbn. rewrite Z.add_0_r, u32_small; [reflexivity|exact Hacc].
  - cbn [foldl sumZ foldr]. rewrite IH by apply u32_range.
    rewrite u32_add_l. unfold sumZ. f_equal. lia.
Qed.

Lemma prf_get_value_size_range (data : list llvm_prf_data) :
  0 <= prf_get_value_size data < 2 ^ 32.
Proof.
  unfold prf_get_value_size. rewrite prf_get_value_size_fold by lia.
  apply u32_range.
Qed.

Lemma prf_get_padding_range (n : Z) : 0 <= prf_get_padding n <= 7.
Proof.
  unfold prf_get_padding. split.
  - apply Z.land_nonneg. lia.
  - assert (H : Z.land 7 (8 - n mod 8) = (8 - n mod 8) mod 2 ^ 3).
    { rewrite Z.land_comm. apply (Z.land_ones _ 3). lia. }
    rewrite H. pose proof (Z.mod_pos_bound (8 - n mod 8) (2 ^ 3) ltac:(lia)). lia.
Qed.

(** When no list has more than 255 nodes and nothing wraps, the cursor
    ends exactly at the allocation size. *)
Lemma cursor_reaches_size_short (s : prf_sections) (zeroed : list Z) :
  Forall fits_u32 (__llvm_prf_data s) ->
  sumZ emitted_bytes (__llvm_prf_data s) < 2 ^ 32 ->
  prf_data_size s + prf_cnts_size s + prf_names_size s < 2 ^ 63 ->
  pos (fill_buffer s zeroed) = prf_buffer_size s.
Proof.
  intros Hfit Hsum Hmem. rewrite prf_fill_buffer_pos. unfold prf_buffer_size.
  assert (Hagree : sumZ (fun p => fst (__prf_get_value_size p)) (__llvm_prf_data s)
                   = sumZ emitted_bytes (__llvm_prf_data s)).
  { clear Hsum. induction Hfit as [|p data (H1 & H2 & H3 & H4) _ IH]; [reflexivity|].
    cbn [sumZ foldr]. unfold sumZ in IH. rewrite IH. f_equal.
    rewrite (size_write_agree_short p (zero_buffer 0) H1 H2 H3 H4).
    rewrite prf_serialize_value_pos. lia. }
  assert (Hnonneg : 0 <= sumZ emitted_bytes (__llvm_prf_data s)).
  { rewrite <- Hagree. apply sumZ_nonneg. intros p.
    rewrite prf_get_value_size_spec. cbn [fst]. cbn zeta.
    destruct (_ =? 0); [lia|apply u32_range]. }
  unfold prf_get_value_size. rewrite prf_get_value_size_fold by lia.
  rewrite Hagree, Z.add_0_l, (u32_small (sumZ _ _)) by lia.
  pose proof (prf_get_padding_range (prf_names_size s)).
  unfold sizeof_llvm_prf_header, prf_data_size, prf_cnts_size, prf_names_size in *.
  unfold u64. rewrite Z.mod_small; lia.
Qed.

(** C6 (as the code has it): for sections with one record whose single
    site has a list of 300 nodes, [prf_buffer_size] is 4264 (header 80,
    records 48, counters 8, names 3, padding 5, values 4120) and the
    cursor of a successful [prf_serialize] ends at 4248, sixteen bytes
    short of the allocation size. *)
Theorem cursor_ends_16_short_of_size :
  let s := one_record_sections 300 in
  prf_buffer_size s = 4264 /\
  pos (fill_buffer s (replicate (Z.to_nat (prf_buffer_size s)) 0)) = 4248.
Proof.
  cbn zeta. split.
  - vm_compute. reflexivity.
  - rewrite prf_fill_buffer_pos. vm_compute. reflexivity.
Qed.

(** ** [prf_serialize] and [prf_open] *)

Lemma prf_serialize_eq (p : prf_private_data) (w : world) :
  serialize p w =
  let flags := irq_flags w in
  let size := prf_buffer_size (sections w) in
  let w1 := emit (EvLock flags) (set_lock w true) in
  if vzalloc_ok w size then
    ((0, {| buffer := Some (mem (fill_buffer (sections w)
                                   (replicate (Z.to_nat size) 0)));
            size := size |}),
     emit (EvUnlock flags) (set_lock (emit (EvVzalloc size true) w1) false))
  else
    ((- ENOMEM, {| buffer := None; size := size |}),
     emit (EvUnlock flags) (set_lock (emit (EvVzalloc size false) w1) false)).
Proof.
  unfold prf_serialize, kbind, prf_serialize_lock, get_sections, vzalloc,
    prf_serialize_unlock, kret.
  cbn [sections emit set_lock vzalloc_ok buffer size]. cbn zeta.
  destruct (vzalloc_ok w (prf_buffer_size (sections w))); reflexivity.
Qed.

(** C7: [prf_serialize] returns 0 or [-ENOMEM], and [-ENOMEM] exactly
    when [vzalloc] refuses the buffer; then the private data holds no
    buffer and the sections are as before, so nothing was copied, and
    [prf_open], once it has its private struct, frees it, returns the
    error and leaves the file without private data attached. *)
Theorem prf_serialize_fails_iff_vzalloc_fails (p : prf_private_data) (f : file)
    (w : world) :
  let size := prf_buffer_size (sections w) in
  let r := serialize p w in
  let err := fst (fst r) in
  (err = 0 \/ err = - ENOMEM) /\
  (err <> 0 <-> vzalloc_ok w size = false) /\
  (err <> 0 ->
     buffer (snd (fst r)) = None /\
     sections (snd r) = sections w /\
     trace (snd r) = trace w ++ [EvLock (irq_flags w); EvVzalloc size false;
                                 EvUnlock (irq_flags w)]) /\
  (err <> 0 -> kzalloc_ok w = true ->
     fst (open f w) = (- ENOMEM, f) /\
     trace (snd (open f w)) =
       trace w ++ [EvKzalloc true; EvLock (irq_flags w); EvVzalloc size false;
                   EvUnlock (irq_flags w); EvKfree]).
Proof.
  cbn zeta. rewrite prf_serialize_eq. cbn zeta.
  destruct (vzalloc_ok w (prf_buffer_size (sections w))) eqn:Hv; cbn [fst snd].
  - split; [left; reflexivity|].
    split; [split; intros; congruence|].
    split; intros; congruence.
  - split; [right; reflexivity|].
    split; [split; [reflexivity|intros _; unfold ENOMEM; lia]|].
    split.
    + intros _. repeat split. cbn. rewrite <- ?app_assoc. reflexivity.
    + intros _ Hk. unfold prf_open, kbind, kzalloc_private. rewrite Hk.
      rewrite prf_serialize_eq. cbn zeta. cbn [sections emit vzalloc_ok].
      rewrite Hv. change (- ENOMEM =? 0) with false.
      cbn. rewrite <- ?app_assoc. split; reflexivity.
Qed.

(** C9: when [vzalloc] refuses the buffer, [prf_serialize] returns
    [-ENOMEM] with [p->buffer] NULL and [p->size] already set to
    [prf_buffer_size()], which is not zero for sections that fit the
    address space: the zeroed struct the caller passed in has changed. *)
Theorem prf_serialize_enomem_sets_size (p : prf_private_data) (w : world) :
  vzalloc_ok w (prf_buffer_size (sections w)) = false ->
  prf_data_size (sections w) + prf_cnts_size (sections w) +
    prf_names_size (sections w) < 2 ^ 63 ->
  let r := fst (serialize p w) in
  fst r = - ENOMEM /\
  buffer (snd r) = None /\
  size (snd r) = prf_buffer_size (sections w) /\
  size (snd r) <> 0 /\
  snd r <> {| buffer := None; size := 0 |}.
Proof.
  intros Hv Hmem. cbn zeta. rewrite prf_serialize_eq. cbn zeta. rewrite Hv.
  cbn [fst snd buffer size].
  assert (Hnz : prf_buffer_size (sections w) <> 0).
  { unfold prf_buffer_size.
    pose proof (prf_get_padding_range (prf_names_size (sections w))).
    pose proof (prf_get_value_size_range (__llvm_prf_data (sections w))).
    unfold sizeof_llvm_prf_header, prf_data_size, prf_cnts_size, prf_names_size in *.
    unfold u64. rewrite Z.mod_small; lia. }
  repeat split; try assumption. intros Heq. inversion Heq. contradiction.
Qed.

(** C10: whether [vzalloc] succeeds or not, [prf_serialize] adds to the
    trace one lock acquisition, the allocation and one lock release, in
    this order; the release is passed the flags the acquisition returned,
    and the lock is free on return. *)
Theorem prf_serialize_unlocks_once (p : prf_private_data) (w : world) :
  let size := prf_buffer_size (sections w) in
  let w' := snd (serialize p w) in
  trace w' = trace w ++ [EvLock (irq_flags w);
                         EvVzalloc size (vzalloc_ok w size);
                         EvUnlock (irq_flags w)] /\
  locks (drop (length (trace w)) (trace w')) = [irq_flags w] /\
  unlocks (drop (length (trace w)) (trace w')) = [irq_flags w] /\
  lock_held w' = false.
Proof.
  cbn zeta. rewrite prf_serialize_eq. cbn zeta.
  assert (Htrace : forall ok,
    trace (emit (EvUnlock (irq_flags w))
             (set_lock (emit (EvVzalloc (prf_buffer_size (sections w)) ok)
                          (emit (EvLock (irq_flags w)) (set_lock w true))) false))
    = trace w ++ [EvLock (irq_flags w);
                  EvVzalloc (prf_buffer_size (sections w)) ok;
                  EvUnlock (irq_flags w)]).
  { intros ok. cbn. rewrite <- !app_assoc. reflexivity. }
  destruct (vzalloc_ok w (prf_buffer_size (sections w))); cbn [snd];
    rewrite Htrace, drop_app_length; repeat split; reflexivity.
Qed.

End blob.

Lemma prf_serialize_fails_iff_vzalloc_fails_witness :
  let w := sample_world (one_record_sections 3) false true in
  fst (prf_open 1000 5 (2 ^ 56) 1 {| private_data := None |} w)
  = (- ENOMEM, {| private_data := None |}).
Proof.
  cbn zeta.
  pose proof (prf_serialize_fails_iff_vzalloc_fails 1000 5 (2 ^ 56) 1
                {| buffer := None; size := 0 |} {| private_data := None |}
                (sample_world (one_record_sections 3) false true)) as H.
  cbn zeta in H. destruct H as (_ & Hiff & _ & Hopen).
  apply Hopen; [apply Hiff|]; reflexivity.
Defined.

Lemma prf_serialize_enomem_sets_size_witness :
  let w := sample_world (one_record_sections 3) false true in
  let r := fst (prf_serialize 1000 5 (2 ^ 56) 1 {| buffer := None; size := 0 |} w) in
  fst r = - ENOMEM /\ buffer (snd r) = None /\ size (snd r) = 216 /\
  size (snd r) <> 0 /\ snd r <> {| buffer := None; size := 0 |}.
Proof.
  apply (prf_serialize_enomem_sets_size 1000 5 (2 ^ 56) 1
           {| buffer := None; size := 0 |}
           (sample_world (one_record_sections 3) false true)).
  - reflexivity.
  - vm_compute. reflexivity.
Defined.

(** ** Reset against snapshot *)

Lemma race_run_app (s1 s2 : list thread) (r : race) :
  race_run (s1 ++ s2) r = race_run s2 (race_run s1 r).
Proof. unfold race_run. apply foldl_app. Qed.

(** [k] steps of the snapshot inside its copy: the next [k] units of the
    counters land in the blob. *)
Lemma copy_steps (k : nat) (r : race) (i : nat) :
  snap r = SnapCopy i ->
  (i + k <= length (live r))%nat ->
  race_run (replicate k Snapshot) r
  = {| live := live r;
       blob := list_inserts i (take k (drop i (live r))) (blob r);
       guard := guard r; snap := SnapCopy (i + k); zeroed := zeroed r |}.
Proof.
  revert r i. induction k as [|k IH]; intros r i Hsnap Hlen.
  - destruct r as [l bl g sn z]. cbn in *. subst sn.
    rewrite Nat.add_0_r. reflexivity.
  - cbn [replicate]. unfold race_run. cbn [foldl race_step].
    fold (race_run (replicate k Snapshot) (snapshot_step r)).
    destruct (lookup_lt_is_Some_2 (live r) i ltac:(lia)) as [x Hx].
    unfold snapshot_step. rewrite Hsnap, Hx.
    rewrite (IH _ (S i)) by (cbn [live snap]; (reflexivity || lia)).
    cbn [live blob guard zeroed].
    rewrite (drop_S _ _ _ Hx). cbn [take list_inserts].
    rewrite list_insert_inserts_lt by lia.
    f_equal. f_equal. lia.
Qed.

(** [k] steps of the reset: the next [k] units of the counters are zero. *)
Lemma zero_steps (k : nat) (r : race) :
  (zeroed r + k <= length (live r))%nat ->
  race_run (replicate k Reset) r
  = {| live := list_inserts (zeroed r) (replicate k 0) (live r);
       blob := blob r; guard := guard r; snap := snap r;
       zeroed := (zeroed r + k)%nat |}.
Proof.
  revert r. induction k as [|k IH]; intros r Hlen.
  - destruct r as [l bl g sn z]. cbn. rewrite Nat.add_0_r. reflexivity.
  - cbn [replicate]. unfold race_run. cbn [foldl race_step].
    fold (race_run (replicate k Reset) (reset_step r)).
    unfold reset_step. destruct (decide (zeroed r < length (live r))%nat); [|lia].
    rewrite IH by (cbn [live zeroed]; rewrite length_insert; lia).
    cbn [live blob guard snap zeroed list_inserts].
    rewrite list_insert_inserts_lt by lia.
    f_equal. lia.
Qed.

(** The whole snapshot without interference: lock, copy, unlock.  The
    blob is what [prf_copy_buffer] leaves when it copies the counters. *)
Lemma snapshot_alone (cnts buf : list Z) (z : nat) :
  race_run (replicate (S (S (length cnts))) Snapshot)
    {| live := cnts; blob := buf; guard := false; snap := SnapLock; zeroed := z |}
  = {| live := cnts;
       blob := mem (prf_copy_buffer {| mem := buf; pos := 0 |} cnts
                      (Z.of_nat (length cnts)));
       guard := false; snap := SnapDone; zeroed := z |}.
Proof.
  replace (S (S (length cnts))) with (1 + (length cnts + 1))%nat by lia.
  rewrite !replicate_add, !race_run_app.
  change (race_run (replicate 1 Snapshot)
            {| live := cnts; blob := buf; guard := false;
               snap := SnapLock; zeroed := z |})
    with {| live := cnts; blob := buf; guard := true;
            snap := SnapCopy 0; zeroed := z |}.
  rewrite (copy_steps (length cnts) _ 0) by (cbn [live snap]; (reflexivity || lia)).
  change (race_run (replicate 1 Snapshot) ?r) with (snapshot_step r).
  cbn [live blob guard zeroed]. rewrite drop_0.
  unfold snapshot_step. cbn [snap live Nat.add].
  rewrite lookup_ge_None_2 by lia.
  unfold prf_copy_buffer, advance, poke, store_bytes. cbn [mem pos].
  rewrite Nat2Z.id. reflexivity.
Qed.

(** A copy that covers the whole destination leaves the source there. *)
Lemma copy_whole (src dst : list Z) :
  length dst = length src ->
  mem (prf_copy_buffer {| mem := dst; pos := 0 |} src (Z.of_nat (length src))) = src.
Proof.
  intros Hlen. unfold prf_copy_buffer, advance, poke, store_bytes. cbn [mem pos].
  rewrite Nat2Z.id, firstn_all. cbn [Z.to_nat].
  rewrite <- (app_nil_r dst), list_inserts_0_r by (symmetry; exact Hlen).
  apply app_nil_r.
Qed.

(** The whole reset without interference: what [memset] leaves. *)
Lemma reset_alone (cnts : list Z) (r : race) :
  live r = cnts -> zeroed r = 0%nat ->
  race_run (replicate (length cnts) Reset) r
  = {| live := memset cnts 0 (Z.of_nat (length cnts)); blob := blob r;
       guard := guard r; snap := snap r; zeroed := length cnts |}.
Proof.
  intros Hlive Hz. rewrite zero_steps by (rewrite Hlive, Hz; lia).
  rewrite Hlive, Hz. unfold memset, store_bytes. rewrite Nat2Z.id. reflexivity.
Qed.

Lemma memset_all (m : list Z) (c : Z) :
  memset m c (Z.of_nat (length m)) = replicate (length m) c.
Proof.
  unfold memset, store_bytes. rewrite Nat2Z.id. cbn [Z.to_nat].
  rewrite <- (app_nil_r m) at 2.
  rewrite list_inserts_0_r by (rewrite length_replicate; reflexivity).
  apply app_nil_r.
Qed.

(** C3 (as the code has it): [prf_reset_write] leaves every counter
    zero without taking or releasing the serialisation lock: the lock
    and the trace are as it found them.  Only a reset
    that runs entirely after or entirely before the snapshot is kept
    apart from it: the blob then holds the counters as they were before
    the reset, respectively zeros only. *)
Theorem reset_clears_without_guard (len : Z) (w : world) :
  let r := prf_reset_write len w in
  let cnts := cnts_bytes (sections w) in
  let n := length cnts in
  cnts_bytes (sections (snd r)) = replicate n 0 /\
  lock_held (snd r) = lock_held w /\
  trace (snd r) = trace w /\
  let init := race_init cnts (replicate n 0) in
  blob (race_run (replicate (S (S n)) Snapshot ++ replicate n Reset) init) = cnts /\
  blob (race_run (replicate n Reset ++ replicate (S (S n)) Snapshot) init)
  = replicate n 0.
Proof.
  cbn zeta. unfold prf_reset_write, kbind, get_sections, put_sections, kret.
  cbn [fst snd sections set_sections set_cnts_bytes cnts_bytes lock_held trace].
  unfold prf_cnts_size. rewrite memset_all.
  set (cnts := cnts_bytes (sections w)).
  repeat split; rewrite race_run_app; unfold race_init.
  - rewrite snapshot_alone.
    rewrite (reset_alone cnts) by reflexivity. cbn [blob].
    apply copy_whole. apply length_replicate.
  - rewrite (reset_alone cnts) by reflexivity. cbn [blob guard snap].
    rewrite memset_all.
    pose proof (snapshot_alone (replicate (length cnts) 0)
                  (replicate (length cnts) 0) (length cnts)) as Hsnap.
    rewrite length_replicate in Hsnap. rewrite Hsnap. cbn [blob].
    pose proof (copy_whole (replicate (length cnts) 0)
                  (replicate (length cnts) 0) eq_refl) as Hcopy.
    rewrite length_replicate in Hcopy. exact Hcopy.
Qed.

(** C3, refuted: with the lock held by a snapshot, [prf_reset_write]
    still clears the counters and neither waits for the lock nor takes
    it; and the schedule in which the reset runs between the copy of the
    first and of the second unit of the counters [[5; 7]] ends with the
    blob [[5; 0]], which is neither the counters before the reset nor
    the counters after it. *)
Lemma reset_during_copy_tears_blob :
  let w := set_lock (sample_world (one_record_sections 1) true true) true in
  let w' := snd (prf_reset_write 1 w) in
  (lock_held w = true /\
   cnts_bytes (sections w) = [5; 0; 0; 0; 0; 0; 0; 0] /\
   cnts_bytes (sections w') = [0; 0; 0; 0; 0; 0; 0; 0] /\
   locks (trace w') = [] /\ unlocks (trace w') = []) /\
  let r := race_run [Snapshot; Snapshot; Reset; Reset; Snapshot; Snapshot]
             (race_init [5; 7] [0; 0]) in
  snap r = SnapDone /\
  live r = [0; 0] /\
  blob r = [5; 0] /\
  blob r <> [5; 7] /\
  blob r <> [0; 0].
Proof. vm_compute. repeat split; discriminate. Qed.

(** * Further properties of the code *)

(** ** The buffer keeps its length *)

Lemma length_poke (b : wbuf) (off : Z) (bs : list Z) :
  length (mem (poke b off bs)) = length (mem b).
Proof. apply length_inserts. Qed.

Lemma length_prf_copy_buffer (b : wbuf) (src : list Z) (n : Z) :
  length (mem (prf_copy_buffer b src n)) = length (mem b).
Proof. apply length_inserts. Qed.

Lemma length_write_nodes (site : list llvm_prf_value_node) (count : Z) (b : wbuf) :
  length (mem (snd (write_nodes site count b))) = length (mem b).
Proof.
  revert count b. induction site as [|nd next IH]; intros count b; [reflexivity|].
  cbn [write_nodes]. destruct (_ <=? _); [|reflexivity].
  rewrite IH. apply length_prf_copy_buffer.
Qed.

Lemma length_write_site (arr : list (list llvm_prf_value_node)) (s counts : Z)
    (b : wbuf) (n : Z) :
  length (mem (write_site arr s counts b n)) = length (mem b).
Proof.
  unfold write_site.
  pose proof (length_write_nodes (site_at arr (u32 (s + n))) 0 b) as H.
  destruct (write_nodes _ 0 b) as [c b']. cbn [snd] in H.
  rewrite length_poke. exact H.
Qed.

Lemma length_write_sites (arr : list (list llvm_prf_value_node)) (s counts : Z)
    (ns : list Z) (b : wbuf) :
  length (mem (foldl (write_site arr s counts) b ns)) = length (mem b).
Proof.
  revert b. induction ns as [|n ns IH]; intros b; [reflexivity|].
  cbn [foldl]. rewrite IH. apply length_write_site.
Qed.

Lemma length_write_kinds (nodes : option (list (list llvm_prf_value_node)))
    (rest : list Z) (kind s : Z) (b : wbuf) :
  length (mem (write_kinds nodes kind rest s b)) = length (mem b).
Proof.
  revert kind s b. induction rest as [|sites rest IH]; intros kind s b; [reflexivity|].
  cbn [write_kinds]. destruct (sites =? 0); [apply IH|].
  destruct nodes as [arr|]; cbn zeta; rewrite IH.
  - rewrite length_write_sites. cbn [advance mem]. rewrite !length_poke. reflexivity.
  - cbn [advance mem]. rewrite !length_poke. reflexivity.
Qed.

Lemma length_prf_serialize_value (p : llvm_prf_data) (b : wbuf) :
  length (mem (prf_serialize_value p b)) = length (mem b).
Proof.
  unfold prf_serialize_value. destruct (__prf_get_value_size p) as [t k].
  destruct (k =? 0); [reflexivity|].
  rewrite length_write_kinds. apply length_prf_copy_buffer.
Qed.

Lemma length_prf_serialize_values (data : list llvm_prf_data) (b : wbuf) :
  length (mem (prf_serialize_values data b)) = length (mem b).
Proof.
  unfold prf_serialize_values. revert b.
  induction data as [|p data IH]; intros b; [reflexivity|].
  cbn [foldl]. rewrite IH. apply length_prf_serialize_value.
Qed.

Lemma length_prf_fill_buffer
    (LLVM_PRF_MAGIC LLVM_PRF_VERSION LLVM_PRF_VARIANT_MASK_IR LLVM_PRF_IPVK_LAST : Z)
    (s : prf_sections) (zeroed : list Z) :
  length (mem (prf_fill_buffer LLVM_PRF_MAGIC LLVM_PRF_VERSION
                 LLVM_PRF_VARIANT_MASK_IR LLVM_PRF_IPVK_LAST s zeroed))
  = length zeroed.
Proof.
  unfold prf_fill_buffer. cbn zeta. rewrite length_prf_serialize_values.
  cbn [advance mem]. rewrite !length_prf_copy_buffer.
  unfold prf_fill_header. cbn zeta. cbn [advance mem].
  rewrite !length_poke. reflexivity.
Qed.

Lemma prf_buffer_size_nonneg (s : prf_sections) : 0 <= prf_buffer_size s.
Proof. unfold prf_buffer_size, u64. apply Z.mod_pos_bound. lia. Qed.

(** ** Opening and releasing the file *)

Section lifecycle.

Variables (LLVM_PRF_MAGIC LLVM_PRF_VERSION : Z).
Variables (LLVM_PRF_VARIANT_MASK_IR LLVM_PRF_IPVK_LAST : Z).

Local Abbreviation serialize :=
  (prf_serialize LLVM_PRF_MAGIC LLVM_PRF_VERSION LLVM_PRF_VARIANT_MASK_IR
     LLVM_PRF_IPVK_LAST).
Local Abbreviation open :=
  (prf_open LLVM_PRF_MAGIC LLVM_PRF_VERSION LLVM_PRF_VARIANT_MASK_IR
     LLVM_PRF_IPVK_LAST).
Local Abbreviation serialize_eq :=
  (prf_serialize_eq LLVM_PRF_MAGIC LLVM_PRF_VERSION LLVM_PRF_VARIANT_MASK_IR
     LLVM_PRF_IPVK_LAST).

Lemma prf_open_eq (f : file) (w : world) :
  open f w =
  if kzalloc_ok w then
    let w1 := emit (EvKzalloc true) w in
    let r := serialize {| buffer := None; size := 0 |} w1 in
    if vzalloc_ok w (prf_buffer_size (sections w))
    then ((0, {| private_data := Some (snd (fst r)) |}), snd r)
    else ((- ENOMEM, f), emit EvKfree (snd r))
  else ((- ENOMEM, f), emit (EvKzalloc false) w).
Proof.
  unfold prf_open, kbind, kzalloc_private.
  destruct (kzalloc_ok w); [|reflexivity].
  cbn zeta. rewrite serialize_eq. cbn zeta. cbn [sections emit vzalloc_ok].
  destruct (vzalloc_ok w (prf_buffer_size (sections w))); cbn [fst snd].
  - reflexivity.
  - change (- ENOMEM =? 0) with false. reflexivity.
Qed.

(** X1: when [vzalloc] grants the buffer, [prf_serialize] returns 0 with
    a buffer of exactly [p->size] bytes, [p->size] being
    [prf_buffer_size()]; the sections are as before and the lock is
    free. *)
Theorem prf_serialize_blob_has_size (p : prf_private_data) (w : world) :
  vzalloc_ok w (prf_buffer_size (sections w)) = true ->
  let r := serialize p w in
  exists blob,
    fst r = (0, {| buffer := Some blob; size := prf_buffer_size (sections w) |}) /\
    Z.of_nat (length blob) = prf_buffer_size (sections w) /\
    sections (snd r) = sections w /\
    lock_held (snd r) = false.
Proof.
  intros Hv. cbn zeta. rewrite serialize_eq. cbn zeta. rewrite Hv.
  eexists. split; [reflexivity|]. cbn [fst snd].
  split; [|split; reflexivity].
  rewrite length_prf_fill_buffer, length_replicate.
  apply Z2Nat.id, prf_buffer_size_nonneg.
Qed.

(** X2: [prf_open] returns 0 when both allocations succeed and
    [-ENOMEM] otherwise.  On success the file gets private data whose
    buffer has [size] bytes; on failure the file is returned as it came.
    If [kzalloc] fails, the lock is not touched and [vzalloc] is not
    called.  The sections are never changed. *)
Theorem prf_open_result (f : file) (w : world) :
  let total := prf_buffer_size (sections w) in
  let r := open f w in
  let ok := kzalloc_ok w && vzalloc_ok w total in
  fst (fst r) = (if ok then 0 else - ENOMEM) /\
  (if ok
   then exists blob,
          snd (fst r) = {| private_data :=
                             Some {| buffer := Some blob; size := total |} |} /\
          Z.of_nat (length blob) = total
   else snd (fst r) = f) /\
  (if kzalloc_ok w then True
   else trace (snd r) = trace w ++ [EvKzalloc false] /\
        lock_held (snd r) = lock_held w) /\
  sections (snd r) = sections w.
Proof.
  cbn zeta. rewrite prf_open_eq.
  destruct (kzalloc_ok w) eqn:Hk; cbn [andb].
  - cbn zeta. rewrite serialize_eq. cbn zeta. cbn [sections emit vzalloc_ok].
    destruct (vzalloc_ok w (prf_buffer_size (sections w))) eqn:Hv; cbn [fst snd].
    + repeat split. eexists. split; [reflexivity|].
      rewrite length_prf_fill_buffer, length_replicate.
      apply Z2Nat.id, prf_buffer_size_nonneg.
    + repeat split.
  - cbn [fst snd]. repeat split.
Qed.

(** X3: no path through [prf_open] and a later [prf_release] leaks.  What
    [prf_open] allocated and did not free itself is exactly what
    [prf_release] frees for the file [prf_open] returned: nothing after a
    failed open, the buffer and then the private data after a successful
    one. *)
Theorem open_release_frees_allocations (w : world) :
  let r := open {| private_data := None |} w in
  let added := drop (length (trace w)) (trace (snd r)) in
  let released := snd (prf_release (snd (fst r))) in
  fst (prf_release (snd (fst r))) = 0 /\
  (allocs added = kfrees added + length released)%nat /\
  match private_data (snd (fst r)) with
  | Some data => released = [FreedBuffer (buffer data); FreedData data] /\
                 buffer data <> None
  | None => released = [] /\ fst (fst r) = - ENOMEM
  end.
Proof.
  cbn zeta. rewrite prf_open_eq.
  destruct (kzalloc_ok w) eqn:Hk.
  - cbn zeta. rewrite serialize_eq. cbn zeta. cbn [sections emit vzalloc_ok].
    destruct (vzalloc_ok w (prf_buffer_size (sections w))) eqn:Hv;
      cbn [fst snd private_data prf_release trace emit set_lock];
      rewrite <- !app_assoc, drop_app_length; repeat split; discriminate.
  - cbn [fst snd private_data prf_release trace emit].
    rewrite drop_app_length. repeat split.
Qed.

End lifecycle.

Lemma prf_serialize_blob_has_size_witness :
  exists blob,
    fst (prf_serialize 1000 5 (2 ^ 56) 1 {| buffer := None; size := 0 |}
           (sample_world (one_record_sections 3) true true))
    = (0, {| buffer := Some blob; size := 216 |}) /\
    Z.of_nat (length blob) = 216 /\
    sections (snd (prf_serialize 1000 5 (2 ^ 56) 1 {| buffer := None; size := 0 |}
                     (sample_world (one_record_sections 3) true true)))
    = one_record_sections 3 /\
    lock_held (snd (prf_serialize 1000 5 (2 ^ 56) 1 {| buffer := None; size := 0 |}
                      (sample_world (one_record_sections 3) true true)))
    = false.
Proof.
  apply (prf_serialize_blob_has_size 1000 5 (2 ^ 56) 1
           {| buffer := None; size := 0 |}
           (sample_world (one_record_sections 3) true true)).
  reflexivity.
Defined.

(** ** Reset *)

Lemma prf_reset_write_eq (len : Z) (w : world) :
  prf_reset_write len w =
  (ssize_t len, set_sections w
          (set_cnts_bytes (sections w)
             (replicate (length (cnts_bytes (sections w))) 0))).
Proof.
  unfold prf_reset_write, kbind, get_sections, put_sections, kret.
  unfold prf_cnts_size. rewrite memset_all. reflexivity.
Qed.

(** The value [prf_reset_write] returns for a [size_t] length: the
    length itself below 2^63, the length less 2^64 from there on. *)
Lemma prf_reset_write_returns (len : Z) (w : world) :
  0 <= len < 2 ^ 64 ->
  fst (prf_reset_write len w) = if len <? 2 ^ 63 then len else len - 2 ^ 64.
Proof.
  intros Hlen. rewrite prf_reset_write_eq. cbn [fst]. unfold ssize_t.
  destruct (Z.ltb_spec len (2 ^ 63)) as [Hlt|Hge].
  - rewrite Z.mod_small by lia. lia.
  - replace (len + 2 ^ 63) with (len - 2 ^ 63 + 1 * 2 ^ 64) by lia.
    rewrite Z.mod_add by lia. rewrite Z.mod_small by lia. lia.
Qed.

(** X4: resetting twice is resetting once, whatever the lengths written;
    a reset changes neither the records nor the names nor the size the
    next snapshot will have. *)
Theorem prf_reset_write_idempotent (len len' : Z) (w : world) :
  let w1 := snd (prf_reset_write len w) in
  snd (prf_reset_write len' w1) = w1 /\
  __llvm_prf_data (sections w1) = __llvm_prf_data (sections w) /\
  data_bytes (sections w1) = data_bytes (sections w) /\
  names_bytes (sections w1) = names_bytes (sections w) /\
  prf_buffer_size (sections w1) = prf_buffer_size (sections w).
Proof.
  cbn zeta. rewrite !prf_reset_write_eq. cbn [snd].
  destruct w as [s l i v k t]. destruct s as [d db cb nb cs ns dc cc nc].
  unfold set_sections, set_cnts_bytes, prf_buffer_size, prf_data_size,
    prf_cnts_size, prf_names_size.
  cbn [sections cnts_bytes data_bytes names_bytes __llvm_prf_data lock_held
       irq_flags vzalloc_ok kzalloc_ok trace __llvm_prf_cnts_start
       __llvm_prf_names_start prf_data_count prf_cnts_count prf_names_count].
  rewrite !length_replicate. repeat split.
Qed.

(** ** Loading and unloading the module *)

(** X5: [pgo_init] returns 0 when debugfs grants the directory and both
    files, and [-EIO] with the message "init failed" otherwise.  It stops
    at the first refusal, and what it created before stays in debugfs:
    the error path removes nothing. *)
Theorem pgo_init_result (m : pgo_module) :
  let r := pgo_init m in
  let ok := create_ok m "pgo" && create_ok m "profraw" && create_ok m "reset" in
  fst r = (if ok then 0 else - EIO) /\
  klog (snd r) = (if ok then klog m else klog m ++ ["init failed"]) /\
  debugfs (snd r) = debugfs m ++ created_by_init (create_ok m) /\
  directory (snd r) = (if create_ok m "pgo" then Some "pgo" else None).
Proof.
  cbn zeta. unfold pgo_init, debugfs_create, created_by_init.
  cbn [d_name pgo_dir]. destruct (create_ok m "pgo") eqn:H1;
    cbn [set_directory directory create_ok debugfs d_name profraw_file andb].
  - destruct (create_ok m "profraw") eqn:H2;
      cbn [directory create_ok debugfs d_name reset_file andb].
    + destruct (create_ok m "reset") eqn:H3;
        cbn [fst snd err_remove pr_err klog debugfs directory];
        rewrite <- ?app_assoc; repeat split.
    + cbn [fst snd err_remove pr_err klog debugfs directory].
      rewrite <- ?app_assoc. repeat split.
  - cbn [fst snd err_remove pr_err klog debugfs directory].
    rewrite app_nil_r. repeat split.
Qed.

Lemma remove_keeps_others (name : string) (es : list dentry) :
  Forall (fun e => ¬ (d_parent e = None /\ d_name e = name) /\
                   d_parent e ≠ Some name) es ->
  debugfs_remove_recursive (Some name) es = es.
Proof.
  intros H. unfold debugfs_remove_recursive.
  induction H as [|e es He _ IH]; [reflexivity|].
  rewrite filter_cons_True by exact He. rewrite IH. reflexivity.
Qed.

(** X6: in a debugfs that has no "pgo" directory of its own, a
    successful [pgo_init] followed by [pgo_exit] leaves the entries of
    debugfs as they were: the directory and both files are gone and
    nothing else is. *)
Theorem pgo_init_exit_restores (m : pgo_module) :
  Forall (fun e => ¬ (d_parent e = None /\ d_name e = "pgo") /\
                   d_parent e ≠ Some "pgo") (debugfs m) ->
  fst (pgo_init m) = 0 ->
  debugfs (pgo_exit (snd (pgo_init m))) = debugfs m.
Proof.
  intros Hfree Hok.
  destruct (pgo_init_result m) as (Hret & _ & Hfs & Hdir). cbn zeta in *.
  rewrite Hret in Hok.
  destruct (create_ok m "pgo") eqn:H1; [|discriminate].
  destruct (create_ok m "profraw") eqn:H2; [|discriminate].
  destruct (create_ok m "reset") eqn:H3; [|discriminate].
  unfold pgo_exit. cbn [debugfs]. rewrite Hdir, Hfs.
  unfold created_by_init. rewrite H1, H2, H3.
  unfold debugfs_remove_recursive. rewrite filter_app.
  fold (debugfs_remove_recursive (Some "pgo") (debugfs m)).
  rewrite (remove_keeps_others _ _ Hfree).
  replace (filter _ [pgo_dir; profraw_file (Some "pgo"); reset_file (Some "pgo")])
    with (@nil dentry) by (vm_compute; reflexivity).
  apply app_nil_r.
Qed.

Lemma pgo_init_exit_restores_witness :
  let m := {| directory := None;
              debugfs := [{| d_name := "tracing"; d_mode := None;
                             d_parent := None; d_fops := None |}];
              create_ok := fun _ => true; klog := [] |} in
  debugfs (pgo_exit (snd (pgo_init m))) = debugfs m.
Proof.
  apply (pgo_init_exit_restores
           {| directory := None;
              debugfs := [{| d_name := "tracing"; d_mode := None;
                             d_parent := None; d_fops := None |}];
              create_ok := fun _ => true; klog := [] |}).
  - apply List.Forall_cons; [|apply List.Forall_nil].
    split; [intros [_ H]; discriminate H|discriminate].
  - reflexivity.
Defined.

(** ** The layout of a flattened value record *)

Lemma site_count_size_ge (sites : Z) :
  sites <= prf_get_value_record_site_count_size sites.
Proof.
  unfold prf_get_value_record_site_count_size.
  pose proof (Z.div_mod (sites + 7) 8 ltac:(lia)).
  pose proof (Z.mod_pos_bound (sites + 7) 8 ltac:(lia)). lia.
Qed.

Lemma length_payload (l : list llvm_prf_value_node) :
  length (mjoin (node_bytes <$> l)) = (16 * length l)%nat.
Proof.
  induction l as [|nd l IH]; [reflexivity|].
  rewrite fmap_cons.
  change (mjoin (node_bytes nd :: (node_bytes <$> l)))
    with (node_bytes nd ++ mjoin (node_bytes <$> l)).
  rewrite length_app, length_node_bytes, IH. cbn [length]. lia.
Qed.

Lemma take_cap (site : list llvm_prf_value_node) :
  take (Z.to_nat (Z.min (Z.of_nat (length site)) 255)) site = take 255 site.
Proof.
  destruct (Z.le_gt_cases (Z.of_nat (length site)) 255) as [Hle|Hgt].
  - rewrite Z.min_l, Nat2Z.id by lia.
    rewrite firstn_all, take_ge by lia. reflexivity.
  - rewrite Z.min_r by lia. reflexivity.
Qed.

Lemma count_byte_spec (site : list llvm_prf_value_node) :
  count_byte site =
  if Z.of_nat (length site) <=? 255 then Z.of_nat (length site) else 0.
Proof.
  unfold count_byte. rewrite count_nodes_spec by lia.
  rewrite Z.add_0_l. apply u8_count. lia.
Qed.

Lemma length_site_payload (site : list llvm_prf_value_node) :
  length (site_payload site) =
  (16 * Z.to_nat (Z.min (Z.of_nat (length site)) 255))%nat.
Proof.
  unfold site_payload. rewrite length_payload, length_take. lia.
Qed.

(** One site written at the start of a run of zero bytes. *)
Lemma write_site_image (arr : list (list llvm_prf_value_node)) (s counts n : Z)
    (head gap post : list Z) (z : nat) :
  let site := site_at arr (u32 (s + n)) in
  counts + n = Z.of_nat (length head) ->
  (length (site_payload site) <= z)%nat ->
  write_site arr s counts
    {| mem := head ++ [0] ++ gap ++ replicate z 0 ++ post;
       pos := Z.of_nat (length (head ++ [0] ++ gap)) |} n
  = {| mem := head ++ [count_byte site] ++ gap ++ site_payload site ++
              replicate (z - length (site_payload site)) 0 ++ post;
       pos := Z.of_nat (length (head ++ [0] ++ gap)) +
              Z.of_nat (length (site_payload site)) |}.
Proof.
  intros site Hcounts Hroom.
  pose proof (length_site_payload site) as Hlen.
  set (k := Z.to_nat (Z.min (Z.of_nat (length site)) 255)) in *.
  replace z with (16 * k + (z - 16 * k))%nat at 1 by lia.
  rewrite replicate_add, <- (app_assoc (replicate (16 * k) 0)).
  rewrite (write_site_spec arr s counts n 0 head gap (replicate (16 * k) 0)
             (replicate (z - 16 * k) 0 ++ post) Hcounts)
    by (rewrite length_replicate; reflexivity).
  fold site. fold k. rewrite <- count_byte_spec.
  unfold k at 1. rewrite take_cap. fold (site_payload site).
  rewrite Hlen. f_equal. lia.
Qed.

Lemma kind_sites_S (arr : list (list llvm_prf_value_node)) (s : Z) (m : nat) :
  kind_sites arr s (Z.of_nat (S m)) =
  kind_sites arr s (Z.of_nat m) ++ [site_at arr (u32 (s + Z.of_nat m))].
Proof.
  unfold kind_sites. rewrite seqZ_S, fmap_app. reflexivity.
Qed.

Lemma length_kind_sites (arr : list (list llvm_prf_value_node)) (s sites : Z) :
  length (kind_sites arr s sites) = Z.to_nat sites.
Proof. unfold kind_sites. rewrite length_fmap. apply length_seqZ. Qed.

(** The site loop of one kind, with the cursor behind the count array
    [c] bytes long: count bytes and node data of the sites done. *)
Lemma write_sites_image (arr : list (list llvm_prf_value_node)) (s : Z)
    (pre post : list Z) (c n m : nat) :
  let vis := kind_sites arr s (Z.of_nat m) in
  (m <= c)%nat ->
  (length (mjoin (site_payload <$> vis)) <= n)%nat ->
  foldl (write_site arr s (Z.of_nat (length pre)))
    {| mem := pre ++ replicate c 0 ++ replicate n 0 ++ post;
       pos := Z.of_nat (length pre) + Z.of_nat c |}
    (seqZ 0 (Z.of_nat m))
  = {| mem := pre ++ ((count_byte <$> vis) ++ replicate (c - m) 0) ++
              mjoin (site_payload <$> vis) ++
              replicate (n - length (mjoin (site_payload <$> vis))) 0 ++ post;
       pos := Z.of_nat (length pre) + Z.of_nat c +
              Z.of_nat (length (mjoin (site_payload <$> vis))) |}.
Proof.
  induction m as [|m IH]; intros vis Hm Hroom.
  - cbn. rewrite !Nat.sub_0_r, Z.add_0_r. reflexivity.
  - subst vis. rewrite kind_sites_S in *.
    set (vis := kind_sites arr s (Z.of_nat m)) in *.
    set (site := site_at arr (u32 (s + Z.of_nat m))) in *.
    assert (Hone : forall l : list Z, mjoin [l] = l) by (intros l; apply app_nil_r).
    rewrite fmap_app, join_app, length_app in Hroom.
    rewrite !fmap_app, !join_app. cbn [fmap list_fmap] in *.
    rewrite Hone in *.
    set (P := mjoin (site_payload <$> vis)) in *.
    rewrite seqZ_S, foldl_app, Z.add_0_l. cbn [foldl].
    rewrite IH by lia. clear IH.
    assert (Hvis : length (count_byte <$> vis) = m)
      by (rewrite length_fmap; unfold vis; rewrite length_kind_sites; lia).
    replace (c - m)%nat with (1 + (c - S m))%nat by lia.
    rewrite replicate_add. cbn [replicate].
    replace (pre ++ ((count_byte <$> vis) ++ [0] ++ replicate (c - S m) 0) ++
             P ++ replicate (n - length P) 0 ++ post)
      with ((pre ++ (count_byte <$> vis)) ++ [0] ++
            (replicate (c - S m) 0 ++ P) ++ replicate (n - length P) 0 ++ post)
      by (rewrite <- !app_assoc; reflexivity).
    replace (Z.of_nat (length pre) + Z.of_nat c + Z.of_nat (length P))
      with (Z.of_nat (length ((pre ++ (count_byte <$> vis)) ++ [0] ++
                              (replicate (c - S m) 0 ++ P))))
      by (rewrite !length_app, Hvis, length_replicate; cbn [length]; lia).
    rewrite write_site_image;
      [|rewrite length_app, Hvis; lia|fold site; lia].
    fold site. f_equal.
    + rewrite <- !app_assoc. cbn [app]. do 3 f_equal.
      replace (n - length P - length (site_payload site))%nat
        with (n - (length P + length (site_payload site)))%nat by lia.
      rewrite length_app. reflexivity.
    + rewrite !length_app, Hvis, length_replicate. cbn [length]. lia.
Qed.

Lemma length_kind_image (kind sites : Z) (vis : list (list llvm_prf_value_node)) :
  (length vis <= Z.to_nat (prf_get_value_record_site_count_size sites))%nat ->
  length (kind_image kind sites vis) =
  (8 + Z.to_nat (prf_get_value_record_site_count_size sites) +
   length (mjoin (site_payload <$> vis)))%nat.
Proof.
  intros Hle. unfold kind_image.
  rewrite !length_app, !length_le_bytes, length_fmap, length_replicate. lia.
Qed.

(** The kind loop on a run of zero bytes that is long enough: the
    records of the kinds, one after the other. *)
Lemma write_kinds_image (nodes : option (list (list llvm_prf_value_node)))
    (rest : list Z) (kind kind' s : Z) (pre post : list Z) (n : nat) :
  Forall (fun sites => 0 <= sites) rest ->
  u32 kind = u32 kind' ->
  (length (kinds_image nodes kind' rest s) <= n)%nat ->
  write_kinds nodes kind rest s
    {| mem := pre ++ replicate n 0 ++ post; pos := Z.of_nat (length pre) |}
  = {| mem := pre ++ kinds_image nodes kind' rest s ++
              replicate (n - length (kinds_image nodes kind' rest s)) 0 ++ post;
       pos := Z.of_nat (length pre) +
              Z.of_nat (length (kinds_image nodes kind' rest s)) |}.
Proof.
  intros Hrest. revert kind kind' s pre n.
  induction Hrest as [|sites rest Hs Hrest IH]; intros kind kind' s pre n Hkind Hroom.
  - cbn. rewrite Nat.sub_0_r, Z.add_0_r. reflexivity.
  - assert (Hnext : u32 (u32 (kind + 1)) = u32 (kind' + 1)).
    { rewrite (u32_small (u32 _)) by apply u32_range.
      rewrite <- (u32_add_l kind), <- (u32_add_l kind'), Hkind. reflexivity. }
    destruct (Z.eqb_spec sites 0) as [Hz|Hne].
    { subst sites. cbn [write_kinds kinds_image] in *.
      change (0 =? 0) with true in *. cbv iota in *.
      rewrite (IH _ (kind' + 1) s pre n Hnext) by exact Hroom. reflexivity. }
    assert (Hnz : (sites =? 0) = false) by (apply Z.eqb_neq; exact Hne).
    pose proof (site_count_size_nonneg sites Hs) as Hc.
    pose proof (site_count_size_ge sites) as Hge.
    set (cz := prf_get_value_record_site_count_size sites) in *.
    set (c := Z.to_nat cz).
    assert (Hcz : cz = Z.of_nat c) by (unfold c; lia).
    set (vis := match nodes with
                | Some arr => kind_sites arr s sites
                | None => []
                end).
    set (s' := match nodes with Some _ => u32 (s + sites) | None => s end).
    assert (Himg : kinds_image nodes kind' (sites :: rest) s =
                   kind_image kind' sites vis ++ kinds_image nodes (kind' + 1) rest s').
    { cbn [kinds_image]. rewrite Hnz. destruct nodes; reflexivity. }
    assert (Hvis : (length vis <= c)%nat).
    { unfold vis. destruct nodes; [rewrite length_kind_sites|cbn [length]]; lia. }
    pose proof (length_kind_image kind' sites vis Hvis) as Hlen. fold cz c in Hlen.
    set (P := mjoin (site_payload <$> vis)) in *.
    rewrite Himg in *. rewrite length_app, Hlen in *.
    cbn [write_kinds]. rewrite Hnz. fold cz.
    (* tag and site count *)
    set (pre2 := (pre ++ le_bytes 4 kind') ++ le_bytes 4 sites).
    assert (Hpre2 : Z.of_nat (length pre2) = Z.of_nat (length pre) + 8).
    { unfold pre2. rewrite !length_app, !length_le_bytes. lia. }
    set (b0 := {| mem := pre ++ replicate n 0 ++ post;
                  pos := Z.of_nat (length pre) |}).
    set (b1 := poke (poke (advance b0 prf_get_value_record_header_size)
                       (pos b0) (le_bytes 4 kind))
                 (pos b0 + 4) (le_bytes 4 sites)).
    assert (Hb1 : b1 = {| mem := pre2 ++ replicate (n - 8) 0 ++ post;
                          pos := Z.of_nat (length pre2) |}).
    { unfold b1, b0, advance, prf_get_value_record_header_size. cbn [mem pos].
      rewrite poke_zeros by (rewrite length_le_bytes; lia).
      rewrite length_le_bytes.
      replace (Z.of_nat (length pre) + 4)
        with (Z.of_nat (length (pre ++ le_bytes 4 kind)))
        by (rewrite length_app, length_le_bytes; lia).
      rewrite (app_assoc pre (le_bytes 4 kind)).
      rewrite poke_zeros by (rewrite length_le_bytes; lia).
      rewrite length_le_bytes.
      rewrite <- (le_bytes4_u32 kind), Hkind, le_bytes4_u32.
      rewrite Hpre2. unfold pre2.
      replace (n - 4 - 4)%nat with (n - 8)%nat by lia.
      rewrite <- !app_assoc. reflexivity. }
    clearbody b1. subst b1. unfold advance. cbn [mem pos].
    assert (Hsites :
      (match nodes with
       | Some arr =>
           foldl (write_site arr s (Z.of_nat (length pre2)))
             {| mem := pre2 ++ replicate (n - 8) 0 ++ post;
                pos := Z.of_nat (length pre2) + cz |} (seqZ 0 sites)
       | None =>
           {| mem := pre2 ++ replicate (n - 8) 0 ++ post;
              pos := Z.of_nat (length pre2) + cz |}
       end)
      = {| mem := (pre ++ kind_image kind' sites vis) ++
                  replicate (n - 8 - c - length P) 0 ++ post;
           pos := Z.of_nat (length (pre ++ kind_image kind' sites vis)) |}).
    { assert (Hsplit : replicate (n - 8) 0 =
                       replicate c 0 ++ replicate (n - 8 - c) (0 : Z))
        by (rewrite <- replicate_add; f_equal; lia).
      rewrite Hsplit, <- (app_assoc (replicate c 0)).
      destruct nodes as [arr|].
      - rewrite Hcz.
        replace sites with (Z.of_nat (Z.to_nat sites)) at 1 by lia.
        rewrite write_sites_image.
        + replace (kind_sites arr s (Z.of_nat (Z.to_nat sites))) with vis
            by (unfold vis; f_equal; lia).
          fold P. unfold kind_image. fold cz c P.
          rewrite !length_app, !length_le_bytes, length_fmap, length_replicate.
          unfold pre2. rewrite !length_app, !length_le_bytes.
          replace (c - Z.to_nat sites)%nat with (c - length vis)%nat
            by (unfold vis; rewrite length_kind_sites; reflexivity).
          f_equal; [rewrite <- !app_assoc; reflexivity|lia].
        + lia.
        + replace (kind_sites arr s (Z.of_nat (Z.to_nat sites))) with vis
            by (unfold vis; f_equal; lia).
          fold P. lia.
      - unfold kind_image. fold cz c.
        replace vis with (@nil (list llvm_prf_value_node)) in * by reflexivity.
        replace P with (@nil Z) in * by reflexivity.
        cbn [fmap list_fmap mjoin list_join length app].
        rewrite !Nat.sub_0_r, !app_nil_r. unfold pre2.
        rewrite !length_app, !length_le_bytes, length_replicate.
        f_equal; [rewrite <- !app_assoc; reflexivity|lia]. }
    assert (Hgoal : forall b,
      b = {| mem := (pre ++ kind_image kind' sites vis) ++
                    replicate (n - 8 - c - length P) 0 ++ post;
             pos := Z.of_nat (length (pre ++ kind_image kind' sites vis)) |} ->
      write_kinds nodes (u32 (kind + 1)) rest s' b =
      {| mem := pre ++ (kind_image kind' sites vis ++
                        kinds_image nodes (kind' + 1) rest s') ++
                replicate (n - (8 + c + length P +
                                length (kinds_image nodes (kind' + 1) rest s'))) 0 ++
                post;
         pos := Z.of_nat (length pre) +
                Z.of_nat (8 + c + length P +
                          length (kinds_image nodes (kind' + 1) rest s')) |}).
    { intros b ->. rewrite (IH _ (kind' + 1) s' _ _ Hnext) by lia.
      rewrite <- !app_assoc, length_app, Hlen.
      f_equal; [|lia]. do 3 f_equal. f_equal. f_equal. lia. }
    destruct nodes as [arr|]; apply Hgoal; exact Hsites.
Qed.

(** The write pass on a run of zero bytes with room for the record. *)
Lemma serialize_value_on_zeros (p : llvm_prf_data) (pre post : list Z) (n : nat) :
  Forall (fun sites => 0 <= sites) (num_value_sites p) ->
  (length (record_image p) <= n)%nat ->
  prf_serialize_value p
    {| mem := pre ++ replicate n 0 ++ post; pos := Z.of_nat (length pre) |}
  = {| mem := pre ++ record_image p ++
              replicate (n - length (record_image p)) 0 ++ post;
       pos := Z.of_nat (length pre) + Z.of_nat (length (record_image p)) |}.
Proof.
  intros Hsites. unfold prf_serialize_value, record_image.
  destruct (__prf_get_value_size p) as [total kinds]. cbn [fst snd].
  destruct (kinds =? 0).
  - intros _. cbn [length app]. rewrite Nat.sub_0_r, Z.add_0_r. reflexivity.
  - assert (Hhdr : length (value_data_bytes total kinds) = 8%nat)
      by (unfold value_data_bytes; rewrite length_app, !length_le_bytes; reflexivity).
    rewrite length_app, Hhdr. intros Hroom.
    unfold prf_copy_buffer, sizeof_llvm_prf_value_data. cbn [pos].
    rewrite take_ge by lia.
    rewrite poke_zeros by lia. unfold advance. cbn [mem pos]. rewrite Hhdr.
    replace (Z.of_nat (length pre) + 8)
      with (Z.of_nat (length (pre ++ value_data_bytes total kinds)))
      by (rewrite length_app, Hhdr; lia).
    rewrite (app_assoc pre (value_data_bytes total kinds)).
    rewrite (write_kinds_image _ _ 0 0 0) by (reflexivity || assumption || lia).
    rewrite <- !app_assoc, length_app, Hhdr.
    f_equal; [|lia].
    replace (n - (8 + length (kinds_image (values p) 0 (num_value_sites p) 0)))%nat
      with (n - 8 - length (kinds_image (values p) 0 (num_value_sites p) 0))%nat
      by lia.
    reflexivity.
Qed.

(** X7: [prf_serialize_value] on a run of zero bytes with room for the
    record writes exactly the flattened value record: nothing for a
    record without sites, else the record header with the size and the
    number of kinds of the size pass and, per kind with sites, tag, site
    count, one count byte per site padded with zeros to the size of the
    count array, and the first 255 nodes of every site in site order.
    What lies before and behind the record is unchanged, the rest of the
    run stays zero and the cursor ends behind the record. *)
Theorem prf_serialize_value_image (p : llvm_prf_data) (pre post : list Z) (n : nat) :
  Forall (fun sites => 0 <= sites) (num_value_sites p) ->
  (length (record_image p) <= n)%nat ->
  prf_serialize_value p
    {| mem := pre ++ replicate n 0 ++ post; pos := Z.of_nat (length pre) |}
  = {| mem := pre ++ record_image p ++
              replicate (n - length (record_image p)) 0 ++ post;
       pos := Z.of_nat (length pre) + Z.of_nat (length (record_image p)) |}.
Proof. exact (serialize_value_on_zeros p pre post n). Qed.

Lemma prf_serialize_value_image_witness :
  let p := {| values := Some [[{| value := 17; count := 2 |};
                               {| value := 34; count := 1 |}]; []];
              num_value_sites := [2; 0] |} in
  prf_serialize_value p {| mem := [255] ++ replicate 60 0 ++ [255]; pos := 1 |}
  = {| mem := [255] ++
              ([56; 0; 0; 0; 1; 0; 0; 0] ++
               [0; 0; 0; 0; 2; 0; 0; 0] ++ [2; 0; 0; 0; 0; 0; 0; 0] ++
               [17; 0; 0; 0; 0; 0; 0; 0; 2; 0; 0; 0; 0; 0; 0; 0] ++
               [34; 0; 0; 0; 0; 0; 0; 0; 1; 0; 0; 0; 0; 0; 0; 0]) ++
              replicate 4 0 ++ [255];
       pos := 57 |}.
Proof.
  apply (prf_serialize_value_image
           {| values := Some [[{| value := 17; count := 2 |};
                               {| value := 34; count := 1 |}]; []];
              num_value_sites := [2; 0] |} [255] [255] 60).
  - repeat constructor; lia.
  - vm_compute. lia.
Defined.

(** The bytes of the flattened value record are the bytes the cursor
    moves by. *)
Lemma length_record_image (p : llvm_prf_data) :
  Forall (fun sites => 0 <= sites) (num_value_sites p) ->
  Z.of_nat (length (record_image p)) = emitted_bytes p.
Proof.
  intros Hsites.
  pose proof (serialize_value_on_zeros p [] [] (length (record_image p))
                Hsites (Nat.le_refl _)) as Himg.
  apply (f_equal pos) in Himg.
  rewrite prf_serialize_value_pos in Himg. cbn [pos length] in Himg. lia.
Qed.

(** ** The layout of the blob *)

Lemma serialize_values_on_zeros (data : list llvm_prf_data) (pre post : list Z)
    (n : nat) :
  Forall (fun p => Forall (fun sites => 0 <= sites) (num_value_sites p)) data ->
  (length (mjoin (record_image <$> data)) <= n)%nat ->
  prf_serialize_values data
    {| mem := pre ++ replicate n 0 ++ post; pos := Z.of_nat (length pre) |}
  = {| mem := pre ++ mjoin (record_image <$> data) ++
              replicate (n - length (mjoin (record_image <$> data))) 0 ++ post;
       pos := Z.of_nat (length pre) +
              Z.of_nat (length (mjoin (record_image <$> data))) |}.
Proof.
  intros Hdata. revert pre n. unfold prf_serialize_values.
  induction Hdata as [|p data Hp _ IH]; intros pre n Hroom.
  - cbn. rewrite Nat.sub_0_r, Z.add_0_r. reflexivity.
  - rewrite fmap_cons in *.
    change (mjoin (record_image p :: (record_image <$> data)))
      with (record_image p ++ mjoin (record_image <$> data)) in *.
    rewrite length_app in *. cbn [foldl].
    rewrite serialize_value_on_zeros by (assumption || lia).
    replace (Z.of_nat (length pre) + Z.of_nat (length (record_image p)))
      with (Z.of_nat (length (pre ++ record_image p)))
      by (rewrite length_app; lia).
    rewrite (app_assoc pre (record_image p)).
    rewrite IH by lia.
    rewrite <- !app_assoc, length_app. f_equal; [|lia].
    replace (n - (length (record_image p) +
                  length (mjoin (record_image <$> data))))%nat
      with (n - length (record_image p) -
            length (mjoin (record_image <$> data)))%nat by lia.
    reflexivity.
Qed.

Lemma copy_on_zeros (pre post src : list Z) (n : nat) :
  (length src <= n)%nat ->
  prf_copy_buffer {| mem := pre ++ replicate n 0 ++ post;
                     pos := Z.of_nat (length pre) |} src (Z.of_nat (length src))
  = {| mem := (pre ++ src) ++ replicate (n - length src) 0 ++ post;
       pos := Z.of_nat (length (pre ++ src)) |}.
Proof.
  intros Hle. unfold prf_copy_buffer. cbn [pos].
  rewrite Nat2Z.id, firstn_all, poke_zeros by exact Hle.
  unfold advance. cbn [mem pos]. rewrite <- app_assoc, length_app.
  f_equal. lia.
Qed.

Lemma fill_header_at
    (LLVM_PRF_MAGIC LLVM_PRF_VERSION LLVM_PRF_VARIANT_MASK_IR LLVM_PRF_IPVK_LAST : Z)
    (s : prf_sections) (pre old post : list Z) :
  length old = 80%nat ->
  prf_fill_header LLVM_PRF_MAGIC LLVM_PRF_VERSION LLVM_PRF_VARIANT_MASK_IR
    LLVM_PRF_IPVK_LAST s
    {| mem := pre ++ old ++ post; pos := Z.of_nat (length pre) |}
  = {| mem := pre ++
              header_bytes
                {| magic := LLVM_PRF_MAGIC;
                   version := Z.lor LLVM_PRF_VARIANT_MASK_IR LLVM_PRF_VERSION;
                   data_size := prf_data_count s;
                   padding_bytes_before_counters := 0;
                   counters_size := prf_cnts_count s;
                   padding_bytes_after_counters := 0;
                   names_size := prf_names_count s;
                   counters_delta := __llvm_prf_cnts_start s;
                   names_delta := __llvm_prf_names_start s;
                   value_kind_last := LLVM_PRF_IPVK_LAST |} ++
              post;
       pos := Z.of_nat (length pre) + 80 |}.
Proof.
  intros Hold. unfold prf_fill_header. cbn [pos]. cbn zeta.
  do 10 store_member.
  unfold advance, sizeof_llvm_prf_header. cbn [mem pos]. f_equal.
  match goal with |- context [drop 8 ?l ++ post] =>
    replace (drop 8 l) with (@nil Z)
      by (symmetry; apply nil_length_inv; rewrite !length_drop; lia)
  end.
  unfold header_bytes.
  cbn [magic version data_size padding_bytes_before_counters counters_size
       padding_bytes_after_counters names_size counters_delta names_delta
       value_kind_last].
  rewrite <- !app_assoc. reflexivity.
Qed.

Section blob_layout.

Variables (LLVM_PRF_MAGIC LLVM_PRF_VERSION : Z).
Variables (LLVM_PRF_VARIANT_MASK_IR LLVM_PRF_IPVK_LAST : Z).

Local Abbreviation fill_buffer :=
  (prf_fill_buffer LLVM_PRF_MAGIC LLVM_PRF_VERSION LLVM_PRF_VARIANT_MASK_IR
     LLVM_PRF_IPVK_LAST).
Local Abbreviation serialize :=
  (prf_serialize LLVM_PRF_MAGIC LLVM_PRF_VERSION LLVM_PRF_VARIANT_MASK_IR
     LLVM_PRF_IPVK_LAST).
Local Abbreviation header :=
  (filled_header LLVM_PRF_MAGIC LLVM_PRF_VERSION LLVM_PRF_VARIANT_MASK_IR
     LLVM_PRF_IPVK_LAST).

Lemma length_header_bytes (h : llvm_prf_header) : length (header_bytes h) = 80%nat.
Proof. reflexivity. Qed.

Lemma length_blob_image (h : llvm_prf_header) (s : prf_sections) :
  length (blob_image h s) =
  (80 + length (data_bytes s) + length (cnts_bytes s) + length (names_bytes s) +
   Z.to_nat (prf_get_padding (prf_names_size s)) +
   length (mjoin (record_image <$> __llvm_prf_data s)))%nat.
Proof.
  unfold blob_image. rewrite !length_app, length_header_bytes, length_replicate. lia.
Qed.

(** The buffer after lines 226-234 of [prf_serialize]. *)
Lemma fill_buffer_on_zeros (s : prf_sections) (n : nat) :
  Forall (fun p => Forall (fun sites => 0 <= sites) (num_value_sites p))
    (__llvm_prf_data s) ->
  (length (blob_image (header s) s) <= n)%nat ->
  fill_buffer s (replicate n 0)
  = {| mem := blob_image (header s) s ++
              replicate (n - length (blob_image (header s) s)) 0;
       pos := Z.of_nat (length (blob_image (header s) s)) |}.
Proof.
  intros Hdata. rewrite length_blob_image. intros Hroom.
  set (padn := Z.to_nat (prf_get_padding (prf_names_size s))) in *.
  set (R := mjoin (record_image <$> __llvm_prf_data s)) in *.
  pose proof (prf_get_padding_range (prf_names_size s)) as Hpad.
  unfold prf_fill_buffer. cbn zeta.
  (* header *)
  replace {| mem := replicate n 0; pos := 0 |}
    with {| mem := [] ++ replicate 80 0 ++ replicate (n - 80) 0;
            pos := Z.of_nat (length (@nil Z)) |}
    by (cbn [app length]; rewrite <- replicate_add; do 2 f_equal; lia).
  rewrite fill_header_at by apply length_replicate.
  cbn [app length]. fold (header s).
  replace {| mem := header_bytes (header s) ++ replicate (n - 80) 0;
             pos := Z.of_nat 0 + 80 |}
    with {| mem := header_bytes (header s) ++ replicate (n - 80) 0 ++ [];
            pos := Z.of_nat (length (header_bytes (header s))) |}
    by (rewrite app_nil_r, length_header_bytes; f_equal).
  (* the three sections *)
  unfold prf_data_size, prf_cnts_size, prf_names_size.
  rewrite copy_on_zeros by lia.
  rewrite copy_on_zeros by lia.
  rewrite copy_on_zeros by lia.
  (* padding *)
  set (pre3 := ((header_bytes (header s) ++ data_bytes s) ++ cnts_bytes s) ++
               names_bytes s).
  set (m := (n - 80 - length (data_bytes s) - length (cnts_bytes s) -
             length (names_bytes s))%nat).
  unfold advance. cbn [mem pos].
  fold (prf_names_size s).
  replace (Z.of_nat (length pre3) + prf_get_padding (prf_names_size s))
    with (Z.of_nat (length (pre3 ++ replicate padn 0)))
    by (rewrite length_app, length_replicate; unfold padn; lia).
  replace (pre3 ++ replicate m 0 ++ [])
    with ((pre3 ++ replicate padn 0) ++ replicate (m - padn) 0 ++ [])
    by (rewrite <- app_assoc, (app_assoc (replicate padn 0)), <- replicate_add;
        do 3 f_equal; unfold m; lia).
  (* value records *)
  fold padn. rewrite serialize_values_on_zeros by (assumption || (fold R; unfold m; lia)).
  fold R. rewrite app_nil_r.
  unfold blob_image. fold padn R. unfold pre3.
  rewrite !length_app, length_header_bytes, length_replicate.
  f_equal; [|lia].
  rewrite <- !app_assoc. do 6 f_equal. f_equal. unfold m. lia.
Qed.

Lemma sum_record_images (data : list llvm_prf_data) :
  Forall (fun p => Forall (fun sites => 0 <= sites) (num_value_sites p)) data ->
  Z.of_nat (length (mjoin (record_image <$> data))) = sumZ emitted_bytes data.
Proof.
  intros H. induction H as [|p data Hp _ IH]; [reflexivity|].
  rewrite fmap_cons.
  change (mjoin (record_image p :: (record_image <$> data)))
    with (record_image p ++ mjoin (record_image <$> data)).
  rewrite length_app, Nat2Z.inj_add, IH, (length_record_image p Hp).
  reflexivity.
Qed.

Lemma sum_sizes_gap (data : list llvm_prf_data) :
  Forall no_wrap data ->
  sumZ (fun p => fst (__prf_get_value_size p)) data =
  sumZ emitted_bytes data + 16 * total_long_sites data.
Proof.
  intros H. unfold total_long_sites.
  induction H as [|p data (H1 & H2 & H3) _ IH]; [reflexivity|].
  cbn [sumZ foldr]. unfold sumZ in IH. rewrite IH.
  rewrite (size_minus_write p (zero_buffer 0) H1 H2 H3).
  rewrite prf_serialize_value_pos.
  unfold sizeof_llvm_prf_value_node_data. lia.
Qed.

Lemma total_long_sites_nonneg (data : list llvm_prf_data) :
  0 <= total_long_sites data.
Proof. apply sumZ_nonneg. intros p. apply long_sites_nonneg. Qed.

(** The allocation size is the length of the image plus one node per
    site with more than 255 nodes. *)
Lemma buffer_size_blob_image (h : llvm_prf_header) (s : prf_sections) :
  sections_fit s ->
  prf_buffer_size s =
  Z.of_nat (length (blob_image h s)) + 16 * total_long_sites (__llvm_prf_data s).
Proof.
  intros (Hrec & Hsum & Hmem).
  assert (Hnonneg : Forall (fun p => Forall (fun sites => 0 <= sites)
                                       (num_value_sites p)) (__llvm_prf_data s)).
  { eapply Forall_impl; [exact Hrec|]. intros p (H1 & _). exact H1. }
  rewrite length_blob_image. rewrite !Nat2Z.inj_add.
  rewrite (sum_record_images _ Hnonneg).
  pose proof (sum_sizes_gap _ Hrec) as Hgap.
  pose proof (total_long_sites_nonneg (__llvm_prf_data s)) as Hlong.
  pose proof (prf_get_padding_range (prf_names_size s)) as Hpad.
  assert (Hem : 0 <= sumZ emitted_bytes (__llvm_prf_data s)).
  { rewrite <- (sum_record_images _ Hnonneg). lia. }
  unfold prf_buffer_size, prf_get_value_size.
  rewrite prf_get_value_size_fold by lia.
  rewrite Z.add_0_l, u32_small by lia.
  unfold sizeof_llvm_prf_header, prf_data_size, prf_cnts_size, prf_names_size in *.
  unfold u64. rewrite Z.mod_small by lia. lia.
Qed.

End blob_layout.

Lemma load_bytes_at (pre mid post : list Z) :
  load_bytes (Z.of_nat (length pre)) (Z.of_nat (length mid)) (pre ++ mid ++ post) = mid.
Proof.
  unfold load_bytes. rewrite !Nat2Z.id.
  rewrite drop_app_length, take_app_length. reflexivity.
Qed.

Lemma sections_fit_reset (len : Z) (w : world) :
  sections_fit (sections w) ->
  sections_fit (sections (snd (prf_reset_write len w))).
Proof.
  rewrite prf_reset_write_eq. cbn [snd]. destruct w as [s l i v k t].
  destruct s as [d db cb nb cs ns dc cc nc].
  unfold sections_fit, set_sections, set_cnts_bytes, prf_data_size,
    prf_cnts_size, prf_names_size.
  cbn [sections cnts_bytes data_bytes names_bytes __llvm_prf_data].
  rewrite length_replicate. tauto.
Qed.

Section format.

Variables (LLVM_PRF_MAGIC LLVM_PRF_VERSION : Z).
Variables (LLVM_PRF_VARIANT_MASK_IR LLVM_PRF_IPVK_LAST : Z).

Local Abbreviation serialize :=
  (prf_serialize LLVM_PRF_MAGIC LLVM_PRF_VERSION LLVM_PRF_VARIANT_MASK_IR
     LLVM_PRF_IPVK_LAST).
Local Abbreviation header :=
  (filled_header LLVM_PRF_MAGIC LLVM_PRF_VERSION LLVM_PRF_VARIANT_MASK_IR
     LLVM_PRF_IPVK_LAST).

Lemma serialize_blob (p : prf_private_data) (w : world) :
  vzalloc_ok w (prf_buffer_size (sections w)) = true ->
  sections_fit (sections w) ->
  fst (serialize p w)
  = (0, {| buffer :=
             Some (blob_image (header (sections w)) (sections w) ++
                   replicate (Z.to_nat (16 * total_long_sites
                                               (__llvm_prf_data (sections w)))) 0);
           size := prf_buffer_size (sections w) |}).
Proof.
  intros Hv Hfit. rewrite prf_serialize_eq. cbn zeta. rewrite Hv. cbn [fst].
  pose proof (buffer_size_blob_image (header (sections w)) _ Hfit) as Hsize.
  pose proof (total_long_sites_nonneg (__llvm_prf_data (sections w))) as Hlong.
  destruct Hfit as (Hrec & _ & _).
  rewrite fill_buffer_on_zeros.
  - cbn [mem]. do 4 f_equal. f_equal. lia.
  - eapply Forall_impl; [exact Hrec|]. intros q (H1 & _). exact H1.
  - lia.
Qed.

(** X8: a successful [prf_serialize] on sections within the range of its
    integers returns the profile data format of the source comment,
    byte for byte: the header, the records, the counters and the names
    verbatim, zero padding, then the flattened value record of every
    metadata record in order.  The buffer ends with sixteen zero bytes
    for every site with more than 255 nodes, and with none when there is
    no such site. *)
Theorem prf_serialize_format (p : prf_private_data) (w : world) :
  vzalloc_ok w (prf_buffer_size (sections w)) = true ->
  sections_fit (sections w) ->
  fst (serialize p w)
  = (0, {| buffer :=
             Some (blob_image (header (sections w)) (sections w) ++
                   replicate (Z.to_nat (16 * total_long_sites
                                               (__llvm_prf_data (sections w)))) 0);
           size := prf_buffer_size (sections w) |}).
Proof. exact (serialize_blob p w). Qed.

(** X9: a reset followed by a snapshot, one after the other: the blob
    holds the records and the names as they are in memory and zeros for
    every counter, at the offsets the header is followed by. *)
Theorem reset_then_snapshot_counters_zero (len : Z) (p : prf_private_data)
    (w : world) :
  vzalloc_ok w (prf_buffer_size (sections w)) = true ->
  sections_fit (sections w) ->
  let s := sections w in
  let w1 := snd (prf_reset_write len w) in
  exists blob,
    fst (serialize p w1) =
      (0, {| buffer := Some blob; size := prf_buffer_size s |}) /\
    load_bytes 80 (prf_data_size s) blob = data_bytes s /\
    load_bytes (80 + prf_data_size s) (prf_cnts_size s) blob =
      replicate (length (cnts_bytes s)) 0 /\
    load_bytes (80 + prf_data_size s + prf_cnts_size s) (prf_names_size s) blob =
      names_bytes s.
Proof.
  intros Hv Hfit. cbn zeta.
  pose proof (sections_fit_reset len w Hfit) as Hfit1.
  assert (Hsize : prf_buffer_size (sections (snd (prf_reset_write len w))) =
                  prf_buffer_size (sections w)).
  { rewrite prf_reset_write_eq. cbn [snd]. destruct w as [s l i v k t].
    destruct s as [d db cb nb cs ns dc cc nc].
    unfold set_sections, set_cnts_bytes, prf_buffer_size, prf_data_size,
      prf_cnts_size, prf_names_size.
    cbn [sections cnts_bytes data_bytes names_bytes __llvm_prf_data].
    rewrite length_replicate. reflexivity. }
  assert (Hv1 : vzalloc_ok (snd (prf_reset_write len w))
                  (prf_buffer_size (sections (snd (prf_reset_write len w)))) = true).
  { rewrite Hsize. rewrite prf_reset_write_eq. exact Hv. }
  rewrite (serialize_blob p _ Hv1 Hfit1), Hsize.
  eexists. split; [reflexivity|].
  rewrite prf_reset_write_eq. cbn [snd]. destruct w as [s l i v k t].
  destruct s as [d db cb nb cs ns dc cc nc].
  unfold blob_image, set_sections, set_cnts_bytes, prf_data_size,
    prf_cnts_size, prf_names_size.
  cbn [sections cnts_bytes data_bytes names_bytes __llvm_prf_data].
  set (H := header_bytes _).
  assert (HH : length H = 80%nat) by reflexivity.
  set (zs := replicate (length cb) (0 : Z)).
  assert (Hzs : length zs = length cb) by apply length_replicate.
  rewrite <- !app_assoc.
  split; [|split].
  - change 80 with (Z.of_nat 80). rewrite <- HH. apply load_bytes_at.
  - replace (80 + Z.of_nat (length db)) with (Z.of_nat (length (H ++ db)))
      by (rewrite length_app, HH; lia).
    rewrite <- Hzs, (app_assoc H db). apply load_bytes_at.
  - replace (80 + Z.of_nat (length db) + Z.of_nat (length cb))
      with (Z.of_nat (length (H ++ db ++ zs)))
      by (rewrite !length_app, HH, Hzs; lia).
    rewrite (app_assoc db zs), (app_assoc H (db ++ zs)).
    apply load_bytes_at.
Qed.

End format.

Lemma prf_serialize_format_witness :
  fst (prf_serialize 1000 5 (2 ^ 56) 1 {| buffer := None; size := 0 |}
         (sample_world (one_record_sections 300) true true))
  = (0, {| buffer :=
             Some (blob_image
                     (filled_header 1000 5 (2 ^ 56) 1 (one_record_sections 300))
                     (one_record_sections 300) ++
                   replicate
                     (Z.to_nat (16 * total_long_sites [one_site_record 300])) 0);
           size := prf_buffer_size (one_record_sections 300) |}).
Proof.
  apply (prf_serialize_format 1000 5 (2 ^ 56) 1 {| buffer := None; size := 0 |}
           (sample_world (one_record_sections 300) true true)).
  - reflexivity.
  - split; [|split].
    + apply List.Forall_cons; [|apply List.Forall_nil].
      split; [|split].
      * repeat (apply List.Forall_cons || apply List.Forall_nil); lia.
      * vm_compute. reflexivity.
      * vm_compute. reflexivity.
    + vm_compute. reflexivity.
    + vm_compute. reflexivity.
Defined.

Lemma reset_then_snapshot_counters_zero_witness :
  exists blob,
    fst (prf_serialize 1000 5 (2 ^ 56) 1 {| buffer := None; size := 0 |}
           (snd (prf_reset_write 1
                   (sample_world (one_record_sections 3) true true)))) =
      (0, {| buffer := Some blob; size := 216 |}) /\
    load_bytes 80 48 blob = replicate 48 1 /\
    load_bytes (80 + 48) 8 blob = replicate 8 0 /\
    load_bytes (80 + 48 + 8) 3 blob = [102; 111; 111].
Proof.
  apply (reset_then_snapshot_counters_zero 1000 5 (2 ^ 56) 1 1
           {| buffer := None; size := 0 |}
           (sample_world (one_record_sections 3) true true)).
  - reflexivity.
  - split; [|split].
    + apply List.Forall_cons; [|apply List.Forall_nil].
      split; [|split].
      * repeat (apply List.Forall_cons || apply List.Forall_nil); lia.
      * vm_compute. reflexivity.
      * vm_compute. reflexivity.
    + vm_compute. reflexivity.
    + vm_compute. reflexivity.
Defined.

(** ** The two passes, in general *)

(** X10: for a record none of whose lists has more than 255 nodes and
    whose size fits the [u32] accumulator, the size [__prf_get_value_size]
    returns is exactly the number of bytes [prf_serialize_value] moves
    the cursor by, whatever the buffer holds. *)
Theorem passes_agree_within_cap (p : llvm_prf_data) (b : wbuf) :
  short_lists p ->
  no_wrap p ->
  fst (__prf_get_value_size p) = pos (prf_serialize_value p b) - pos b.
Proof.
  intros Hshort (H1 & H2 & H3). exact (size_write_agree_short p b Hshort H1 H2 H3).
Qed.

Lemma passes_agree_within_cap_witness :
  fst (__prf_get_value_size (one_site_record 255)) =
  pos (prf_serialize_value (one_site_record 255) (zero_buffer 10)) - 0.
Proof.
  apply (passes_agree_within_cap (one_site_record 255) (zero_buffer 10)).
  - unfold short_lists. cbn [values one_site_record].
    apply List.Forall_cons; [rewrite length_replicate; lia|apply List.Forall_nil].
  - split; [|split].
    + repeat (apply List.Forall_cons || apply List.Forall_nil); lia.
    + vm_compute. reflexivity.
    + vm_compute. reflexivity.
Defined.

(** X11: for every record whose size fits the [u32] accumulator, the
    size pass is ahead of the write pass by sixteen bytes for each site
    it visits whose list has more than 255 nodes; so the write pass
    never moves the cursor further than the size pass reserved. *)
Theorem write_pass_within_size_pass (p : llvm_prf_data) (b : wbuf) :
  no_wrap p ->
  fst (__prf_get_value_size p) =
    pos (prf_serialize_value p b) - pos b +
    16 * long_sites (values p) (num_value_sites p) 0 /\
  pos (prf_serialize_value p b) - pos b <= fst (__prf_get_value_size p).
Proof.
  intros (H1 & H2 & H3). split.
  - exact (size_minus_write p b H1 H2 H3).
  - exact (write_within_size p b H1 H2 H3).
Qed.

Lemma write_pass_within_size_pass_witness :
  fst (__prf_get_value_size (one_site_record 300)) =
    pos (prf_serialize_value (one_site_record 300) (zero_buffer 10)) - 0 +
    16 * long_sites (values (one_site_record 300)) [1; 0] 0 /\
  pos (prf_serialize_value (one_site_record 300) (zero_buffer 10)) - 0
  <= fst (__prf_get_value_size (one_site_record 300)).
Proof.
  apply (write_pass_within_size_pass (one_site_record 300) (zero_buffer 10)).
  split; [|split].
  - repeat (apply List.Forall_cons || apply List.Forall_nil); lia.
  - vm_compute. reflexivity.
  - vm_compute. reflexivity.
Defined.

(** X12: the size pass returns size 0 exactly when it counts no kind,
    and the number of kinds it counts is the number of nonzero site
    counts: the test [if (size)] that adds the record header and the
    test [if (!header.num_value_kinds)] that skips the record decide the
    same way. *)
Theorem size_zero_iff_no_kinds (p : llvm_prf_data) :
  no_wrap p ->
  snd (__prf_get_value_size p) = kinds_present (num_value_sites p) /\
  (fst (__prf_get_value_size p) = 0 <-> snd (__prf_get_value_size p) = 0).
Proof.
  intros (Hsites & Hlen & Hfit).
  rewrite prf_get_value_size_spec. cbn zeta. cbn [fst snd].
  pose proof (kinds_bytes_lower 256 (values p) _ 0 ltac:(lia) Hsites) as Hlow.
  pose proof (kinds_present_nonneg (num_value_sites p)) as Hk0.
  pose proof (kinds_present_le (num_value_sites p)) as Hk1.
  unfold sizeof_llvm_prf_value_data in *.
  rewrite (u32_small (kinds_present _)) by lia.
  rewrite (u32_small (kinds_bytes _ _ _ _)) by lia.
  split; [reflexivity|].
  destruct (Z.eqb_spec (kinds_bytes 256 (values p) (num_value_sites p) 0) 0) as [Hz|Hnz].
  - split; [lia|reflexivity].
  - rewrite u32_small by lia. split; [lia|].
    intros H0. pose proof (kinds_bytes_none_present 256 (values p) _ 0 H0). lia.
Qed.

Lemma size_zero_iff_no_kinds_witness :
  snd (__prf_get_value_size (one_site_record 3)) = kinds_present [1; 0] /\
  (fst (__prf_get_value_size (one_site_record 3)) = 0 <->
   snd (__prf_get_value_size (one_site_record 3)) = 0).
Proof.
  apply (size_zero_iff_no_kinds (one_site_record 3)).
  split; [|split].
  - repeat (apply List.Forall_cons || apply List.Forall_nil); lia.
  - vm_compute. reflexivity.
  - vm_compute. reflexivity.
Defined.

(** X13: one iteration of the site loop of [prf_serialize_value], for
    any list and any buffer with room: the data of the first
    [min(length, 255)] nodes is copied to the cursor, which moves behind
    it, and the count byte of the site becomes the length of the list
    when that is at most 255 and 0 otherwise; no other byte changes. *)
Theorem write_site_count_and_payload
    (arr : list (list llvm_prf_value_node)) (s counts n c : Z)
    (head gap old post : list Z) :
  let site := site_at arr (u32 (s + n)) in
  let len := Z.of_nat (length site) in
  let k := Z.to_nat (Z.min len 255) in
  counts + n = Z.of_nat (length head) ->
  length old = (16 * k)%nat ->
  write_site arr s counts
    {| mem := head ++ [c] ++ gap ++ old ++ post;
       pos := Z.of_nat (length (head ++ [c] ++ gap)) |} n
  = {| mem := head ++ [if len <=? 255 then len else 0] ++ gap ++
              mjoin (node_bytes <$> take k site) ++ post;
       pos := Z.of_nat (length (head ++ [c] ++ gap)) + Z.of_nat k * 16 |}.
Proof. exact (write_site_spec arr s counts n c head gap old post). Qed.

Lemma write_site_count_and_payload_witness :
  write_site [[sample_node; sample_node]] 0 1
    {| mem := [9] ++ [77] ++ [8; 8] ++ replicate 32 5 ++ [9];
       pos := 4 |} 0
  = {| mem := [9] ++ [2] ++ [8; 8] ++
              mjoin (node_bytes <$> [sample_node; sample_node]) ++ [9];
       pos := 4 + 2 * 16 |}.
Proof.
  apply (write_site_count_and_payload [[sample_node; sample_node]] 0 1 0 77
           [9] [8; 8] (replicate 32 5) [9]); reflexivity.
Defined.

(** ** Copying and summing *)

(** X14: [prf_copy_buffer] replaces the [size] bytes at the cursor by
    the first [size] bytes of the source, changes no other byte and moves
    the cursor by [size]. *)
Theorem prf_copy_buffer_spec (pre old post src : list Z) (k : nat) :
  (k <= length src)%nat ->
  length old = k ->
  prf_copy_buffer {| mem := pre ++ old ++ post; pos := Z.of_nat (length pre) |}
    src (Z.of_nat k)
  = {| mem := pre ++ take k src ++ post;
       pos := Z.of_nat (length pre) + Z.of_nat k |}.
Proof.
  intros Hk Hold. unfold prf_copy_buffer, advance, poke. cbn [mem pos].
  rewrite Nat2Z.id.
  rewrite store_bytes_middle by (rewrite length_take; lia).
  reflexivity.
Qed.

Lemma prf_copy_buffer_spec_witness :
  prf_copy_buffer {| mem := [1; 2] ++ [0; 0; 0] ++ [9]; pos := 2 |} [5; 6; 7; 8] 3
  = {| mem := [1; 2] ++ [5; 6; 7] ++ [9]; pos := 2 + 3 |}.
Proof.
  apply (prf_copy_buffer_spec [1; 2] [0; 0; 0] [9] [5; 6; 7; 8] 3).
  - cbn. lia.
  - reflexivity.
Defined.

Lemma sumZ_perm {A : Type} (f : A -> Z) (l l' : list A) :
  l ≡ₚ l' -> sumZ f l = sumZ f l'.
Proof.
  intros H. induction H as [|x l l' _ IH|x y l|l l' l'' _ IH1 _ IH2];
    cbn [sumZ foldr]; unfold sumZ in *; lia.
Qed.

Lemma sumZ_app {A : Type} (f : A -> Z) (l l' : list A) :
  sumZ f (l ++ l') = sumZ f l + sumZ f l'.
Proof.
  induction l as [|x l IH]; cbn [sumZ foldr app]; unfold sumZ in *; lia.
Qed.

(** X15: [prf_get_value_size] is the sum of the sizes of the records
    reduced modulo 2^32 once: the wrap-around of the [u32] accumulator
    along the way does not matter.  So the total does not depend on the
    order of the records, and the total of two runs of records is the
    sum of their totals modulo 2^32. *)
Theorem prf_get_value_size_sum (data data' : list llvm_prf_data) :
  prf_get_value_size data =
    u32 (sumZ (fun p => fst (__prf_get_value_size p)) data) /\
  (data ≡ₚ data' -> prf_get_value_size data' = prf_get_value_size data) /\
  prf_get_value_size (data ++ data') =
    u32 (prf_get_value_size data + prf_get_value_size data').
Proof.
  unfold prf_get_value_size. rewrite !prf_get_value_size_fold by lia.
  rewrite !Z.add_0_l. split; [reflexivity|]. split.
  - intros Hperm. rewrite (sumZ_perm _ _ _ Hperm). reflexivity.
  - rewrite sumZ_app. unfold u32.
    rewrite <- Zplus_mod. reflexivity.
Qed.

(** X16: when no list has more than 255 nodes and no size wraps, the
    cursor of a successful [prf_serialize] ends exactly at [p->size]:
    the allocation is filled to its last byte. *)
Theorem cursor_ends_at_size_within_cap
    (LLVM_PRF_MAGIC LLVM_PRF_VERSION LLVM_PRF_VARIANT_MASK_IR LLVM_PRF_IPVK_LAST : Z)
    (s : prf_sections) (zeroed : list Z) :
  Forall fits_u32 (__llvm_prf_data s) ->
  sumZ emitted_bytes (__llvm_prf_data s) < 2 ^ 32 ->
  prf_data_size s + prf_cnts_size s + prf_names_size s < 2 ^ 63 ->
  pos (prf_fill_buffer LLVM_PRF_MAGIC LLVM_PRF_VERSION LLVM_PRF_VARIANT_MASK_IR
         LLVM_PRF_IPVK_LAST s zeroed)
  = prf_buffer_size s.
Proof.
  exact (cursor_reaches_size_short LLVM_PRF_MAGIC LLVM_PRF_VERSION
           LLVM_PRF_VARIANT_MASK_IR LLVM_PRF_IPVK_LAST s zeroed).
Qed.

Lemma cursor_ends_at_size_within_cap_witness :
  pos (prf_fill_buffer 1000 5 (2 ^ 56) 1 (one_record_sections 255)
         (replicate 4248 0))
  = prf_buffer_size (one_record_sections 255).
Proof.
  apply (cursor_ends_at_size_within_cap 1000 5 (2 ^ 56) 1
           (one_record_sections 255) (replicate 4248 0)).
  - apply List.Forall_cons; [|apply List.Forall_nil].
    split; [|split; [|split]].
    + unfold short_lists. cbn [values one_site_record one_record_sections].
      apply List.Forall_cons; [rewrite length_replicate; lia|apply List.Forall_nil].
    + repeat (apply List.Forall_cons || apply List.Forall_nil); lia.
    + vm_compute. reflexivity.
    + vm_compute. reflexivity.
  - vm_compute. reflexivity.
  - vm_compute. reflexivity.
Defined.
